(** * PW-Analyst admin scripts: a shallow embedding and its properties

    The admin panel of PW-Analyst is enhanced by a handful of browser
    scripts: the global initialiser (tooltips, navigation), the tag admin
    helpers, the test-result enhancements (smart tooltips), the colour
    picker widget (two revisions) and the advanced colour picker (colour
    validation, contrast colour, colour history).

    This file embeds the parts of those scripts that carry behaviour worth
    stating: string validation and conversion, tooltip placement, the
    tooltip life cycle with its timers, the click handler of the colour
    presets, the colour history kept in local storage and the exported
    global objects.

    Conventions of the embedding.
    - A script string is a [string]; the patterns used here only look at
      ASCII characters, and [parseInt] trims the white space found among
      the code units below 256.
    - Script numbers are binary64 numbers ([PrimFloat]): the placement of
      a tooltip and the luminance test of [getContrastColor] are computed
      operation by operation, in the order the scripts evaluate them.
      Rationals ([Q]) only serve to say what a rounded sum differs from.
    - [parseInt] yields [option Z]: [None] stands for NaN.
    - Mutable script state (the document, closure variables, pending
      timers, local storage) is threaded explicitly. *)

From Stdlib Require Import ZArith NArith QArith Lia Bool List.
From Stdlib Require Import Ascii String DecimalString.
From Stdlib Require Import Floats Uint63.
Import ListNotations.

Local Open Scope string_scope.
Local Open Scope Z_scope.

(** ** The script runtime: strings, [parseInt], patterns *)

Module JS.

(** Character classes are lists of inclusive ranges, as written between
    square brackets in a pattern. *)
Definition char_range := (ascii * ascii)%type.

Definition in_range (rg : char_range) (c : ascii) : bool :=
  (N_of_ascii (fst rg) <=? N_of_ascii c)%N
  && (N_of_ascii c <=? N_of_ascii (snd rg))%N.

Definition in_ranges (rs : list char_range) (c : ascii) : bool :=
  existsb (fun rg => in_range rg c) rs.

Definition to_upper (c : ascii) : ascii :=
  if in_range ("a", "z")%char c
  then ascii_of_N (N_of_ascii c - 32) else c.

Definition to_lower (c : ascii) : ascii :=
  if in_range ("A", "Z")%char c
  then ascii_of_N (N_of_ascii c + 32) else c.

(** Membership in a class; with the [i] flag a character also matches
    through its other case. *)
Definition in_class (icase : bool) (rs : list char_range) (c : ascii)
  : bool :=
  in_ranges rs c
  || (icase && (in_ranges rs (to_upper c) || in_ranges rs (to_lower c))).

(** The fragment of the pattern language the scripts use. *)
Inductive regex : Type :=
| Chr (c : ascii)
| Class (rs : list char_range)
| Seq (r1 r2 : regex)
| Alt (r1 r2 : regex)
| Opt (r : regex)
| Rep (n : nat) (r : regex)
| Group (r : regex).

Definition captures := list string.

(** The text consumed between a position [s] and a later one [s']. *)
Definition consumed (s s' : string) : string :=
  substring 0 (String.length s - String.length s') s.

(** Backtracking matcher in continuation style: alternatives are tried
    left to right, [Opt] is greedy, a group records what it consumed. *)
Fixpoint rmatch (icase : bool) (r : regex) (s : string) (caps : captures)
         (k : string -> captures -> option captures) {struct r}
  : option captures :=
  match r with
  | Chr c =>
      match s with
      | String c' s' =>
          if in_class icase [(c, c)] c' then k s' caps else None
      | EmptyString => None
      end
  | Class rs =>
      match s with
      | String c' s' => if in_class icase rs c' then k s' caps else None
      | EmptyString => None
      end
  | Seq r1 r2 =>
      rmatch icase r1 s caps (fun s' caps' => rmatch icase r2 s' caps' k)
  | Alt r1 r2 =>
      match rmatch icase r1 s caps k with
      | Some res => Some res
      | None => rmatch icase r2 s caps k
      end
  | Opt r1 =>
      match rmatch icase r1 s caps k with
      | Some res => Some res
      | None => k s caps
      end
  | Rep n r1 =>
      (fix rep (n : nat) (s : string) (caps : captures) {struct n}
         : option captures :=
         match n with
         | O => k s caps
         | S m => rmatch icase r1 s caps (fun s' caps' => rep m s' caps')
         end) n s caps
  | Group r1 =>
      rmatch icase r1 s caps
             (fun s' caps' => k s' (caps' ++ [consumed s s'])%list)
  end.

(** [/^r$/.exec(s)]: the whole of [s] has to be matched; the result
    lists the groups in order. *)
Definition exec_anchored (icase : bool) (r : regex) (s : string)
  : option captures :=
  rmatch icase r s []
         (fun s' caps =>
            match s' with EmptyString => Some caps | _ => None end).

(** [/^r$/.test(s)]. *)
Definition test_anchored (icase : bool) (r : regex) (s : string) : bool :=
  match exec_anchored icase r s with Some _ => true | None => false end.

(** *** [parseInt(s, 16)] *)

(** The white space [parseInt] trims, among the code units below 256:
    tab to carriage return, the space and the no-break space U+00A0. *)
Definition is_space (c : ascii) : bool :=
  let n := N_of_ascii c in
  ((9 <=? n) && (n <=? 13) || (n =? 32) || (n =? 160))%N.

Fixpoint skip_spaces (s : string) : string :=
  match s with
  | String c s' => if is_space c then skip_spaces s' else s
  | EmptyString => s
  end.

Definition hex_digit (c : ascii) : option Z :=
  let n := Z.of_N (N_of_ascii c) in
  if in_range ("0", "9")%char c then Some (n - 48)
  else if in_range ("a", "f")%char c then Some (n - 87)
  else if in_range ("A", "F")%char c then Some (n - 55)
  else None.

(** Reads the longest run of hexadecimal digits; [None] when there is
    no digit at all. *)
Fixpoint hex_run (acc : option Z) (s : string) : option Z :=
  match s with
  | String c s' =>
      match hex_digit c with
      | Some d =>
          hex_run (Some (16 * match acc with Some a => a | None => 0 end
                         + d)) s'
      | None => acc
      end
  | EmptyString => acc
  end.

Definition strip_0x (s : string) : string :=
  match s with
  | String "0" (String "x" s') => s'
  | String "0" (String "X" s') => s'
  | _ => s
  end.

Definition parseInt16 (s : string) : option Z :=
  let s := skip_spaces s in
  let '(sign, s) :=
    match s with
    | String "-" s' => (-1, s')
    | String "+" s' => (1, s')
    | _ => (1, s)
    end in
  option_map (Z.mul sign) (hex_run None (strip_0x s)).

(** What a template literal prints for the result of [parseInt]. *)
Definition number_to_string (n : option Z) : string :=
  match n with
  | Some z => NilZero.string_of_int (Z.to_int z)
  | None => "NaN"
  end.

(** [s.replace(c, '')] with a one-character string [c]: the first
    occurrence is dropped. *)
Fixpoint remove_first (c : ascii) (s : string) : string :=
  match s with
  | String c' s' => if Ascii.eqb c' c then s' else String c' (remove_first c s')
  | EmptyString => EmptyString
  end.

(** [s.substr(start, len)] for a start inside the string. *)
Definition substr (s : string) (start len : nat) : string :=
  substring start len s.

(** The binary64 number of an integer of small magnitude (below 2^53,
    where the conversion is exact). *)
Definition number_of_Z (z : Z) : float :=
  match z with
  | Z0 => PrimFloat.zero
  | Zpos _ => PrimFloat.of_uint63 (Uint63.of_Z z)
  | Zneg p => PrimFloat.opp (PrimFloat.of_uint63 (Uint63.of_Z (Zpos p)))
  end.

Definition number_of_parse (n : option Z) : float :=
  match n with Some z => number_of_Z z | None => PrimFloat.nan end.

(** A global object literal: property names with what they hold. *)
Inductive value : Type :=
| VFunction (name : string)
| VString (s : string)
| VObject (name : string).

Definition object := list (string * value).

Fixpoint get (o : object) (key : string) : option value :=
  match o with
  | (k, v) :: o' => if String.eqb k key then Some v else get o' key
  | [] => None
  end.

Definition is_callable (v : option value) : bool :=
  match v with Some (VFunction _) => true | _ => false end.

End JS.

(** ** Tag admin helpers (static/admin/js/tag_admin.js, first script) *)

Module TagAdmin.
Import JS.

(** [/^#([A-Fa-f0-9]{6}|[A-Fa-f0-9]{3})$/] *)
Definition hexRegex : regex :=
  let digit := Class [("A", "F"); ("a", "f"); ("0", "9")]%char in
  Seq (Chr "#") (Group (Alt (Rep 6 digit) (Rep 3 digit))).

Definition isValidColor (color : string) : bool :=
  match color with
  | EmptyString => false
  | _ => test_anchored false hexRegex color
  end.

(** [/^#?([a-f\d]{2})([a-f\d]{2})([a-f\d]{2})$/i] *)
Definition rgbaRegex : regex :=
  let digit := Class [("a", "f"); ("0", "9")]%char in
  Seq (Opt (Chr "#"))
      (Seq (Group (Rep 2 digit))
           (Seq (Group (Rep 2 digit)) (Group (Rep 2 digit)))).

(** [alpha] is the text the template literal prints for the alpha
    argument (["1"] for the default). *)
Definition hexToRgba (hex : string) (alpha : string) : string :=
  match exec_anchored true rgbaRegex hex with
  | Some [g1; g2; g3] =>
      let r := parseInt16 g1 in
      let g := parseInt16 g2 in
      let b := parseInt16 g3 in
      "rgba(" ++ number_to_string r ++ ", " ++ number_to_string g ++ ", "
              ++ number_to_string b ++ ", " ++ alpha ++ ")"
  | _ => hex
  end.

Definition PWAnalystTagAdmin : object :=
  [ ("enhanceTagDisplay", VFunction "enhanceTagDisplay");
    ("initializeTagColorPreview", VFunction "initializeTagColorPreview");
    ("addTagUtilities", VFunction "addTagUtilities") ].

End TagAdmin.

(** ** Measurements handed out by the browser *)

Module DOM.

(** [getBoundingClientRect()] of an element: four script numbers.  The
    sizes of an element are not negative, so its left and top edges are
    [x] and [y] and its bottom edge is [y + height], a binary64
    addition. *)
Record DOMRect : Type := mkRect
  { rect_x : float; rect_y : float; rect_width : float; rect_height : float }.

Definition rect_left (r : DOMRect) : float := rect_x r.
Definition rect_top (r : DOMRect) : float := rect_y r.
Definition rect_bottom (r : DOMRect) : float :=
  (rect_y r + rect_height r)%float.

(** What a tooltip script measures when it places a tooltip. *)
Record layout : Type := mkLayout
  { trigger : DOMRect;
    tooltipRect : DOMRect;
    innerWidth : float;
    innerHeight : float }.

(** A floating tooltip element attached to the document body; [style_top]
    and [style_left] are the numbers written before [px]. *)
Record node : Type := mkNode
  { node_id : nat;
    className : string;
    textContent : string;
    opacity : string;
    style_top : float;
    style_left : float }.

Definition set_opacity (o : string) (n : node) : node :=
  mkNode (node_id n) (className n) (textContent n) o
         (style_top n) (style_left n).

Definition set_opacity_of (id : nat) (o : string) (body : list node)
  : list node :=
  map (fun n => if Nat.eqb (node_id n) id then set_opacity o n else n) body.

Definition attached (id : nat) (body : list node) : bool :=
  existsb (fun n => Nat.eqb (node_id n) id) body.

Definition removeChild (id : nat) (body : list node) : list node :=
  filter (fun n => negb (Nat.eqb (node_id n) id)) body.

Definition with_class (c : string) (body : list node) : list node :=
  filter (fun n => String.eqb (className n) c) body.

(** [classList] of an element: an ordered set of tokens. *)
Definition contains (cl : list string) (c : string) : bool :=
  existsb (String.eqb c) cl.

Definition add (cl : list string) (c : string) : list string :=
  if contains cl c then cl else (cl ++ [c])%list.

Definition remove (cl : list string) (c : string) : list string :=
  filter (fun x => negb (String.eqb x c)) cl.

End DOM.

(** ** Global initialiser (tooltips of titled elements) *)

Module Init.
Import JS DOM.

(** The placement computed in [showTooltip]: [(top, left)].  Every
    operation is the binary64 one; [a > b] is [b <? a], false as soon as
    one side is not a number. *)
Definition position (l : layout) : float * float :=
  let rect := trigger l in
  let tw := rect_width (tooltipRect l) in
  let th := rect_height (tooltipRect l) in
  let top := (rect_bottom rect + 8)%float in
  let left := (rect_left rect + rect_width rect / 2 - tw / 2)%float in
  let left := if (left <? 8)%float then 8%float else left in
  let left :=
    if (innerWidth l - 8 <? left + tw)%float
    then (innerWidth l - tw - 8)%float else left in
  let top :=
    if (innerHeight l - 8 <? top + th)%float
    then (rect_top rect - th - 8)%float else top in
  (top, left).

(** The callback [hideTooltip] hands to [setTimeout]: it looks at the
    variable [currentTooltip] when it runs. *)
Inductive callback : Type := RemoveCurrent.

(** A pending timer: the time (ms) at which it is due, and what it
    runs. *)
Record timer : Type := mkTimer { due : nat; action : callback }.

(** All timers of this script wait 200 ms, so they fire in the order
    they were set; animation frames are the nodes waiting to fade in;
    [now] is the clock (ms). *)
Record state : Type := mkState
  { body : list node;
    currentTooltip : option nat;
    timers : list timer;
    frames : list nat;
    next_id : nat;
    now : nat }.

Definition initial : state := mkState [] None [] [] 0 0.

Definition hideTooltip (st : state) : state :=
  match currentTooltip st with
  | Some id =>
      mkState (set_opacity_of id "0" (body st)) (currentTooltip st)
              (timers st ++ [mkTimer (now st + 200) RemoveCurrent])
              (frames st) (next_id st) (now st)
  | None => st
  end.

Definition showTooltip (l : layout) (text : string) (st : state) : state :=
  let st := hideTooltip st in
  let id := next_id st in
  let placed := position l in
  let tooltip :=
    mkNode id "global-tooltip" text "0" (fst placed) (snd placed) in
  mkState (body st ++ [tooltip]) (Some id) (timers st)
          (frames st ++ [id]) (S id) (now st).

Definition run_callback (cb : callback) (st : state) : state :=
  match cb with
  | RemoveCurrent =>
      let body' :=
        match currentTooltip st with
        | Some id =>
            if attached id (body st) then removeChild id (body st)
            else body st
        | None => body st
        end in
      mkState body' None (timers st) (frames st) (next_id st) (now st)
  end.

(** [initializeGlobalTooltips] gives listeners to the elements whose
    title is longer than 30 characters ([title && title.length > 30]). *)
Definition listens (title : string) : bool :=
  Nat.ltb 30 (String.length title).

(** [MouseEnter l title]: the pointer enters an element with this
    title, measured as [l]; [MouseLeave]: it leaves an element that
    carries the listeners. *)
Inductive event : Type :=
| MouseEnter (l : layout) (title : string)
| MouseLeave
| TimerFires
| FrameFires.

Definition step (st : state) (e : event) : state :=
  match e with
  | MouseEnter l title =>
      if listens title then showTooltip l title st else st
  | MouseLeave => hideTooltip st
  | TimerFires =>
      match timers st with
      | t :: rest =>
          run_callback (action t)
            (mkState (body st) (currentTooltip st) rest
                     (frames st) (next_id st) (Nat.max (now st) (due t)))
      | [] => st
      end
  | FrameFires =>
      match frames st with
      | id :: rest =>
          mkState (set_opacity_of id "1" (body st)) (currentTooltip st)
                  (timers st) rest (next_id st) (now st)
      | [] => st
      end
  end.

Definition run (es : list event) : state := fold_left step es initial.

Definition tooltips (st : state) : list node :=
  with_class "global-tooltip" (body st).

Definition PWAnalystInit : object :=
  [ ("initialize", VFunction "initialize");
    ("config", VObject "config");
    ("logger", VObject "logger");
    ("version", VString "1.0") ].

End Init.

(** ** Test-result enhancements (static/admin/js/tag_admin.js, second
       script): smart tooltips *)

Module TestResults.
Import JS DOM.

(** The placement computed in the timer callback of [showTooltip]:
    [(top, left)], in binary64 as above. *)
Definition position (l : layout) : float * float :=
  let rect := trigger l in
  let tw := rect_width (tooltipRect l) in
  let th := rect_height (tooltipRect l) in
  let top := (rect_bottom rect + 8)%float in
  let left := (rect_left rect + rect_width rect / 2 - tw / 2)%float in
  let left := if (left <? 8)%float then 8%float else left in
  let left :=
    if (innerWidth l - 8 <? left + tw)%float
    then (innerWidth l - tw - 8)%float else left in
  let top :=
    if (innerHeight l - 8 <? top + th)%float
    then (rect_top rect - th - 8)%float else top in
  (top, left).

Inductive callback : Type :=
| CreateTooltip   (* set by showTooltip, 500 ms *)
| BeginHide       (* set by hideTooltip, 100 ms *)
| RemoveTooltip.  (* set by BeginHide, 200 ms *)

Record timer : Type := mkTimer
  { timer_id : nat; due : nat; action : callback }.

(** One closure of [createSmartTooltip(element, fullText)] together with
    the document body, the pending timers and the clock (ms).  [frames]
    counts the pending animation-frame callbacks. *)
Record state : Type := mkState
  { fullText : string;
    body : list node;
    tooltip : option nat;
    showTimeout : option nat;
    hideTimeout : option nat;
    timers : list timer;
    frames : nat;
    now : nat;
    next_timer : nat;
    next_node : nat }.

Definition createSmartTooltip (text : string) : state :=
  mkState text [] None None None [] 0 0 0 0.

Definition clearTimeout (id : option nat) (ts : list timer) : list timer :=
  match id with
  | Some i => filter (fun t => negb (Nat.eqb (timer_id t) i)) ts
  | None => ts
  end.

(** [showTooltip]: [clearTimeout(hideTimeout)], then
    [showTimeout = setTimeout(..., 500)]. *)
Definition showTooltip (st : state) : state :=
  let ts := clearTimeout (hideTimeout st) (timers st) in
  let id := next_timer st in
  mkState (fullText st) (body st) (tooltip st) (Some id) (hideTimeout st)
          (ts ++ [mkTimer id (now st + 500) CreateTooltip])
          (frames st) (now st) (S id) (next_node st).

(** [hideTooltip]: [clearTimeout(showTimeout)], then, when a tooltip is
    recorded, [hideTimeout = setTimeout(..., 100)]. *)
Definition hideTooltip (st : state) : state :=
  let ts := clearTimeout (showTimeout st) (timers st) in
  match tooltip st with
  | Some _ =>
      let id := next_timer st in
      mkState (fullText st) (body st) (tooltip st) (showTimeout st)
              (Some id)
              (ts ++ [mkTimer id (now st + 100) BeginHide])
              (frames st) (now st) (S id) (next_node st)
  | None =>
      mkState (fullText st) (body st) (tooltip st) (showTimeout st)
              (hideTimeout st) ts (frames st) (now st) (next_timer st)
              (next_node st)
  end.

(** [l] is what the browser measures when the callback runs. *)
Definition run_callback (l : layout) (cb : callback) (st : state) : state :=
  match cb with
  | CreateTooltip =>
      let id := next_node st in
      let placed := position l in
      let n :=
        mkNode id "smart-tooltip" (fullText st) "0"
               (fst placed) (snd placed) in
      mkState (fullText st) (body st ++ [n]) (Some id) (showTimeout st)
              (hideTimeout st) (timers st) (S (frames st)) (now st)
              (next_timer st) (S id)
  | BeginHide =>
      match tooltip st with
      | Some id =>
          let tid := next_timer st in
          mkState (fullText st) (set_opacity_of id "0" (body st))
                  (tooltip st) (showTimeout st) (hideTimeout st)
                  (timers st ++ [mkTimer tid (now st + 200) RemoveTooltip])
                  (frames st) (now st) (S tid) (next_node st)
      | None => st   (* the callback throws on [tooltip.style] *)
      end
  | RemoveTooltip =>
      let body' :=
        match tooltip st with
        | Some id =>
            if attached id (body st) then removeChild id (body st)
            else body st
        | None => body st
        end in
      mkState (fullText st) body' None (showTimeout st) (hideTimeout st)
              (timers st) (frames st) (now st) (next_timer st)
              (next_node st)
  end.

(** The pending timer that fires next: the earliest due one, the oldest
    among equals. *)
Fixpoint earliest (ts : list timer) : option timer :=
  match ts with
  | [] => None
  | t :: rest =>
      match earliest rest with
      | Some t' => if Nat.ltb (due t') (due t) then Some t' else Some t
      | None => Some t
      end
  end.

Inductive event : Type :=
| MouseEnter
| Focus
| MouseLeave
| Blur
| TimerFires (l : layout)
| FrameFires.

Definition step (st : state) (e : event) : state :=
  match e with
  | MouseEnter | Focus => showTooltip st
  | MouseLeave | Blur => hideTooltip st
  | TimerFires l =>
      match earliest (timers st) with
      | Some t =>
          run_callback l (action t)
            (mkState (fullText st) (body st) (tooltip st) (showTimeout st)
                     (hideTimeout st)
                     (clearTimeout (Some (timer_id t)) (timers st))
                     (frames st) (Nat.max (now st) (due t))
                     (next_timer st) (next_node st))
      | None => st
      end
  | FrameFires =>
      match frames st with
      | S k =>
          let body' :=
            match tooltip st with
            | Some id => set_opacity_of id "1" (body st)
            | None => body st
            end in
          mkState (fullText st) body' (tooltip st) (showTimeout st)
                  (hideTimeout st) (timers st) k (now st) (next_timer st)
                  (next_node st)
      | O => st
      end
  end.

Definition run (text : string) (es : list event) : state :=
  fold_left step es (createSmartTooltip text).

Definition tooltips (st : state) : list node :=
  with_class "smart-tooltip" (body st).

Definition PWAnalystTestResults : object :=
  [ ("initialize", VFunction "initializeTestResultsEnhancements");
    ("version", VString "2.0") ].

End TestResults.

(** ** Colour picker widget: the click handler of the presets

    The repository carries two revisions of the script.  Both listen for
    clicks on the document and react to targets of class [color-preset]. *)

Module Widget.
Import DOM.

Record preset : Type := mkPreset
  { classList : list string; data_color : string }.

(** A [.color-picker-widget-container]: the input its [data-input-name]
    designates ([None] when the query finds nothing), the text of its
    [.color-value] element ([None] when absent) and the elements in it
    that can be clicked (the preset buttons carry the class
    [color-preset]). *)
Record container : Type := mkContainer
  { colorInput : option string;
    colorValue : option string;
    presets : list preset }.

(** [changes] lists the change events dispatched on the input (the value
    at dispatch), [notifications] the colours announced as used. *)
Record page : Type := mkPage
  { widget : container;
    changes : list string;
    notifications : list string }.

(** The clicked element: the [i]-th preset button of the container, or
    an element outside any container. *)
Inductive target : Type :=
| Inside (i : nat)
| Outside (p : preset).

Definition target_element (pg : page) (t : target) : option preset :=
  match t with
  | Inside i => nth_error (presets (widget pg)) i
  | Outside p => Some p
  end.

Definition map_classes (f : list string -> list string) (p : preset)
  : preset :=
  mkPreset (f (classList p)) (data_color p).

Fixpoint update_nth (i : nat) (f : preset -> preset) (ps : list preset)
  : list preset :=
  match ps, i with
  | [], _ => []
  | p :: ps', O => f p :: ps'
  | p :: ps', S j => p :: update_nth j f ps'
  end.

(** [container.querySelectorAll('.color-preset').forEach(f)] *)
Definition for_presets (f : preset -> preset) (ps : list preset)
  : list preset :=
  map (fun p => if contains (classList p) "color-preset" then f p else p)
      ps.

(** [syncPresetSelection(container, selectedColor)] *)
Definition syncPresetSelection (ps : list preset) (selectedColor : string)
  : list preset :=
  for_presets
    (fun btn =>
       if String.eqb (data_color btn) selectedColor
       then map_classes (fun cl => add cl "selected") btn
       else map_classes (fun cl => remove cl "selected") btn) ps.

(** The part both revisions share once the input has been found:
    the value is set, the selection marks are moved to the clicked
    button and a change event is dispatched, whose listeners
    synchronise the marks (and the value label when [with_label]). *)
Definition select (with_label : bool) (i : nat) (color : string)
           (pg : page) : page :=
  let c := widget pg in
  let label :=
    match colorValue c with
    | Some _ => if with_label then Some color else colorValue c
    | None => None
    end in
  let ps :=
    for_presets (map_classes (fun cl => remove cl "selected"))
                (presets c) in
  let ps := update_nth i (map_classes (fun cl => add cl "selected")) ps in
  let ps := syncPresetSelection ps color in
  mkPage (mkContainer (Some color) label ps)
         (changes pg ++ [color]) (notifications pg).

(** *** static/admin/js/color_picker.js *)
Module Basic.

Definition click (t : target) (pg : page) : page :=
  match target_element pg t with
  | Some el =>
      if contains (classList el) "color-preset" then
        let color := data_color el in
        match t with
        | Inside i =>
            match colorInput (widget pg) with
            | Some _ => select false i color pg
            | None => pg
            end
        | Outside _ => pg   (* [closest] finds nothing: the handler throws *)
        end
      else pg
  | None => pg
  end.

End Basic.

(** *** The revision with used colours *)
Module Extended.

(** [showColorUsedMessage(colorButton)] *)
Definition showColorUsedMessage (el : preset) (pg : page) : page :=
  mkPage (widget pg) (changes pg)
         (notifications pg ++ [data_color el]).

Definition click (t : target) (pg : page) : page :=
  match target_element pg t with
  | Some el =>
      if contains (classList el) "color-preset" then
        if contains (classList el) "used" then
          showColorUsedMessage el pg
        else
          let color := data_color el in
          match t with
          | Inside i =>
              match colorInput (widget pg) with
              | Some _ => select true i color pg
              | None => pg
              end
          | Outside _ => pg   (* [closest] finds nothing: the handler throws *)
          end
      else pg
  | None => pg
  end.

End Extended.

End Widget.

(** ** The browser's colour parser

    Assigning a string to [style.color] keeps it only when the browser
    parses it as a colour.  Every browser knows at least the basic colour
    keywords; [accepts_color] is that least parser. *)

Module Browser.

Definition basic_color_keywords : list string :=
  [ "black"; "silver"; "gray"; "white"; "maroon"; "red"; "purple";
    "fuchsia"; "green"; "lime"; "olive"; "yellow"; "navy"; "blue";
    "teal"; "aqua" ].

Definition accepts_color (s : string) : bool :=
  existsb (String.eqb s) basic_color_keywords.

End Browser.

(** ** Advanced colour picker *)

Module ColorPicker.
Import JS.

(** [/^#([A-Fa-f0-9]{6}|[A-Fa-f0-9]{3})$/] *)
Definition hexRegex : regex :=
  let digit := Class [("A", "F"); ("a", "f"); ("0", "9")]%char in
  Seq (Chr "#") (Group (Alt (Rep 6 digit) (Rep 3 digit))).

(** [css] tells whether [style.color] keeps the string assigned to it. *)
Definition isValidColor (css : string -> bool) (color : string) : bool :=
  match color with
  | EmptyString => false
  | _ => if test_anchored false hexRegex color then true else css color
  end.

(** The three channels as [getContrastColor] reads them. *)
Definition channels (hexColor : string)
  : option Z * option Z * option Z :=
  let hex := remove_first "#" hexColor in
  (parseInt16 (substr hex 0 2),
   parseInt16 (substr hex 2 2),
   parseInt16 (substr hex 4 2)).

(** [(0.299 * r + 0.587 * g + 0.114 * b) / 255] on binary64 numbers;
    each decimal constant denotes the nearest binary64 number. *)
#[local] Set Warnings "-inexact-float".
Definition luminance (r g b : float) : float :=
  ((0.299 * r + 0.587 * g + 0.114 * b) / 255)%float.
#[local] Set Warnings "inexact-float".

Definition getContrastColor (hexColor : string) : string :=
  let '(r, g, b) := channels hexColor in
  let luminance :=
    luminance (number_of_parse r) (number_of_parse g)
              (number_of_parse b) in
  if PrimFloat.ltb 0.5%float luminance then "#000000" else "#ffffff".

(** *** Colour history

    Local storage holds, under the key [pw_analyst_color_history], the
    JSON text of an array of strings; the model keeps the array the
    text encodes ([None]: the key is absent). *)
Definition storage := option (list string).

Definition MAX_HISTORY : nat := 10.

Definition getColorHistory (st : storage) : list string :=
  match st with
  | Some history => history
  | None => []
  end.

Definition addToColorHistory (color : string) (st : storage) : storage :=
  let history := getColorHistory st in
  let history := filter (fun c => negb (String.eqb c color)) history in
  let history := color :: history in
  let history := firstn MAX_HISTORY history in
  Some history.

(** The storage after a run of additions, oldest first. *)
Definition replay (colors : list string) : storage :=
  fold_left (fun st c => addToColorHistory c st) colors None.

Definition PWAnalystColorPicker : object :=
  [ ("initialize", VFunction "initializeAdvancedColorPickers");
    ("addToHistory", VFunction "") ].

End ColorPicker.

(** ** The global objects once every script has run *)

Definition window : list (string * JS.object) :=
  [ ("PWAnalystInit", Init.PWAnalystInit);
    ("PWAnalystTestResults", TestResults.PWAnalystTestResults);
    ("PWAnalystTagAdmin", TagAdmin.PWAnalystTagAdmin);
    ("PWAnalystColorPicker", ColorPicker.PWAnalystColorPicker) ].

(** [window.<name>.initialize] is a function. *)
Definition exposes_initialize (name : string) : bool :=
  match find (fun entry => String.eqb (fst entry) name) window with
  | Some (_, o) => JS.is_callable (JS.get o "initialize")
  | None => false
  end.

(** ** Page detection (global initialiser) *)

Module Pages.

(** [s.includes(sub)] *)
Fixpoint includes (s sub : string) : bool :=
  if String.prefix sub s then true
  else match s with
       | String _ s' => includes s' sub
       | EmptyString => false
       end.

(** [detectPage()], on [window.location.pathname]. *)
Definition detectPage (path : string) : string :=
  if includes path "/admin/core/testresult/" then "test-results"
  else if includes path "/admin/core/tag/" then "tags"
  else if includes path "/admin/core/testexecution/" then "executions"
  else if includes path "/admin/" then "admin"
  else "unknown".

(** A titled element that went through [k] runs of
    [initializeGlobalTooltips] carries [k] mouseenter listeners (each run
    adds a new closure) and one mouseleave listener ([hideTooltip]
    itself, which is added once): a mouseenter calls [showTooltip] [k]
    times. *)
Definition mouseenter (k : nat) (l : DOM.layout) (title : string)
           (st : Init.state) : Init.state :=
  Nat.iter k (Init.showTooltip l title) st.

End Pages.

(** ** Advanced colour picker: the palette of an input *)

Module Palette.
Import DOM.

Record input : Type := mkInput
  { value : string;
    originalValue : option string;   (* dataset.originalValue *)
    backgroundColor : string;
    color : string }.

Record swatch : Type := mkSwatch
  { classList : list string; data_color : string }.

(** The input, the [.color-option] elements of its palette, the change
    events dispatched on the input and the options whose selection
    animation is pending (300 ms each, so they end in order). *)
Record state : Type := mkState
  { inputElement : input;
    colorOptions : list swatch;
    changes : list string;
    timers : list nat }.

Section Runtime.

(** [css] tells whether the browser parses a string as a colour,
    [toLowerCase] is the string method. *)
Variable css : string -> bool.
Variable toLowerCase : string -> string.

(** Assigning [v] to a colour property of [style] whose value is [old]:
    the empty string clears it, a string the browser does not read as a
    colour is ignored.  The browser reads the hexadecimal notations of
    [hexRegex] and whatever [css] accepts. *)
Definition assign (old v : string) : string :=
  match v with
  | EmptyString => EmptyString
  | _ => if ColorPicker.isValidColor css v then v else old
  end.

Definition previewColor (el : input) (c : string) : input :=
  mkInput c (Some (value el))
          (assign (backgroundColor el) c)
          (assign (color el) (ColorPicker.getContrastColor c)).

Definition resetColorPreview (el : input) : input :=
  match originalValue el with
  | Some original =>
      let currentColor := original in
      if ColorPicker.isValidColor css currentColor then
        mkInput original None
                (assign (backgroundColor el) currentColor)
                (assign (color el)
                        (ColorPicker.getContrastColor currentColor))
      else mkInput original None "" ""
  | None => el
  end.

Definition set_selected (b : bool) (o : swatch) : swatch :=
  mkSwatch (if b then add (classList o) "selected"
            else remove (classList o) "selected")
           (data_color o).

Definition updateSelectedColor (st : state) : state :=
  let el := inputElement st in
  let currentColor := toLowerCase (value el) in
  let options :=
    map (fun o =>
           set_selected
             (String.eqb (toLowerCase (data_color o)) currentColor) o)
        (colorOptions st) in
  let el' :=
    if ColorPicker.isValidColor css currentColor then
      mkInput (value el) (originalValue el)
              (assign (backgroundColor el) currentColor)
              (assign (color el)
                      (ColorPicker.getContrastColor currentColor))
    else mkInput (value el) (originalValue el) "" "" in
  mkState el' options (changes st) (timers st).

Definition set_value (v : string) (st : state) : state :=
  let el := inputElement st in
  mkState (mkInput v (originalValue el) (backgroundColor el) (color el))
          (colorOptions st) (changes st) (timers st).

Fixpoint update_nth (i : nat) (f : swatch -> swatch) (os : list swatch)
  : list swatch :=
  match os, i with
  | [], _ => []
  | o :: os', O => f o :: os'
  | o :: os', S j => o :: update_nth j f os'
  end.

(** The click listener of option [i]. *)
Definition click (i : nat) (st : state) : state :=
  match nth_error (colorOptions st) i with
  | Some o =>
      let color := data_color o in
      let st := set_value color st in
      let st := updateSelectedColor st in
      (* dispatchEvent(change): the listener of the input runs *)
      let st :=
        mkState (inputElement st) (colorOptions st)
                (changes st ++ [color])%list (timers st) in
      let st := updateSelectedColor st in
      mkState (inputElement st)
              (update_nth i (set_selected true) (colorOptions st))
              (changes st) (timers st ++ [i])%list
  | None => st
  end.

Inductive event : Type :=
| MouseEnter (i : nat)
| MouseLeave (i : nat)
| Click (i : nat)
| Typed (v : string)     (* the user edits the input *)
| TimerFires.

Definition step (st : state) (e : event) : state :=
  match e with
  | MouseEnter i =>
      match nth_error (colorOptions st) i with
      | Some o =>
          mkState (previewColor (inputElement st) (data_color o))
                  (colorOptions st) (changes st) (timers st)
      | None => st
      end
  | MouseLeave i =>
      match nth_error (colorOptions st) i with
      | Some _ =>
          mkState (resetColorPreview (inputElement st))
                  (colorOptions st) (changes st) (timers st)
      | None => st
      end
  | Click i => click i st
  | Typed v => updateSelectedColor (set_value v st)
  | TimerFires =>
      match timers st with
      | i :: rest =>
          mkState (inputElement st)
                  (update_nth i (set_selected false) (colorOptions st))
                  (changes st) rest
      | [] => st
      end
  end.

End Runtime.

End Palette.

(** ** Advanced colour picker: the listener that feeds the history *)

Module HistoryEvents.
Import DOM ColorPicker.

(** A change event: the classes of its target and the value it holds. *)
Record change : Type := mkChange
  { target_classes : list string; target_value : string }.

Definition on_change (css : string -> bool) (st : storage) (e : change)
  : storage :=
  if contains (target_classes e) "advanced-color-picker" then
    let color := target_value e in
    if isValidColor css color then addToColorHistory color st else st
  else st.

Definition run (css : string -> bool) (es : list change) : storage :=
  fold_left (on_change css) es None.

End HistoryEvents.

(** ** Arrow keys in tables *)

Module TableNav.

(** A cell; [focusable] tells whether [focus()] on the element the
    handler picks in it (its first link, input or button, else the cell
    itself) moves the focus there. *)
Record cell : Type := mkCell { focusable : bool }.

(** The rows of one table section (the children of one parent). *)
Definition rows := list (list cell).

Definition position := (nat * nat)%type.   (* row, cell in the row *)

Definition cell_at (t : rows) (p : position) : option cell :=
  match nth_error t (fst p) with
  | Some row => nth_error row (snd p)
  | None => None
  end.

Inductive key : Type :=
| ArrowUp | ArrowDown | ArrowLeft | ArrowRight
| OtherKey (name : string).

(** The cell the handler aims at, from the cell that holds the focus. *)
Definition targetCell (t : rows) (k : key) (p : position)
  : option position :=
  let (i, j) := p in
  match k with
  | ArrowUp =>
      match i with
      | O => None                     (* no previous row *)
      | S i' =>
          match cell_at t (i', j) with
          | Some _ => Some (i', j)
          | None => None
          end
      end
  | ArrowDown =>
      match cell_at t (S i, j) with
      | Some _ => Some (S i, j)
      | None => None
      end
  | ArrowLeft =>
      match j with
      | O => None
      | S j' => Some (i, j')
      end
  | ArrowRight =>
      match cell_at t (i, S j) with
      | Some _ => Some (i, S j)
      | None => None
      end
  | OtherKey _ => None
  end.

(** The handler on a keydown in the cell at [p]: where the focus is
    afterwards, and whether the default action was prevented. *)
Definition keydown (t : rows) (k : key) (p : position) : position * bool :=
  match cell_at t p with
  | None => (p, false)
  | Some _ =>
      match targetCell t k p with
      | Some q =>
          match cell_at t q with
          | Some c => (if focusable c then q else p, true)
          | None => (p, true)
          end
      | None => (p, false)
      end
  end.

(** One key press runs every keydown listener that applies, one after
    the other: the listener of the table first ([handleTableNavigation],
    from the cell of the event target, which holds the focus), then the
    listeners of the document ([addKeyboardNavigation] adds one each
    time it runs), each from the cell that holds the focus by then.
    [n] is the number of these listeners. *)
Definition keypress (n : nat) (t : rows) (k : key) (p : position)
  : position :=
  Nat.iter n (fun q => fst (keydown t k q)) p.

Definition opposite (k : key) : key :=
  match k with
  | ArrowUp => ArrowDown
  | ArrowDown => ArrowUp
  | ArrowLeft => ArrowRight
  | ArrowRight => ArrowLeft
  | OtherKey n => OtherKey n
  end.

End TableNav.

(** ** The slide-in panel of test details (HTMX glue) *)

Module TestPanel.
Import DOM.

Record panel : Type := mkPanel
  { display : string; panel_classes : list string }.

(** [panel] and [overlay] are what [getElementById] finds. *)
Record page : Type := mkPage
  { test_detail_panel : option panel;
    panel_overlay : option (list string);   (* its classList *)
    body_overflow : string }.

Inductive callback : Type :=
| SlideIn    (* set by openTestPanel, 10 ms *)
| Hide.      (* set by closeTestPanel, 300 ms *)

Record timer : Type := mkTimer { due : nat; action : callback }.

Record state : Type := mkState
  { dom : page; timers : list timer; now : nat }.

Definition openTestPanel (st : state) : state :=
  match test_detail_panel (dom st), panel_overlay (dom st) with
  | Some p, Some o =>
      mkState
        (mkPage (Some (mkPanel "block" (panel_classes p)))
                (Some (remove o "hidden"))
                "hidden")
        (timers st ++ [mkTimer (now st + 10) SlideIn])
        (now st)
  | _, _ => st
  end.

Definition closeTestPanel (st : state) : state :=
  match test_detail_panel (dom st), panel_overlay (dom st) with
  | Some p, Some o =>
      mkState
        (mkPage
           (Some (mkPanel (display p)
                    (add (remove (panel_classes p) "translate-x-0")
                         "translate-x-full")))
           (Some o) (body_overflow (dom st)))
        (timers st ++ [mkTimer (now st + 300) Hide])
        (now st)
  | _, _ => st
  end.

(** The callbacks act on the elements found when the timer was set;
    these stay in the document, so they are the ones of the page. *)
Definition run_callback (cb : callback) (d : page) : page :=
  match test_detail_panel d, panel_overlay d with
  | Some p, Some o =>
      match cb with
      | SlideIn =>
          mkPage
            (Some (mkPanel (display p)
                     (add (remove (panel_classes p) "translate-x-full")
                          "translate-x-0")))
            (Some o) (body_overflow d)
      | Hide =>
          mkPage (Some (mkPanel "none" (panel_classes p)))
                 (Some (add o "hidden")) ""
      end
  | _, _ => d
  end.

(** The pending timer that fires next, with the others. *)
Fixpoint earliest (ts : list timer) : option (timer * list timer) :=
  match ts with
  | [] => None
  | t :: rest =>
      match earliest rest with
      | Some (t', rest') =>
          if Nat.ltb (due t') (due t) then Some (t', t :: rest')
          else Some (t, rest)
      | None => Some (t, [])
      end
  end.

Inductive event : Type :=
| Open        (* a swap into the panel, or a direct call *)
| Close       (* the Escape key, or a direct call *)
| TimerFires.

Definition step (st : state) (e : event) : state :=
  match e with
  | Open => openTestPanel st
  | Close => closeTestPanel st
  | TimerFires =>
      match earliest (timers st) with
      | Some (t, rest) =>
          mkState (run_callback (action t) (dom st)) rest
                  (Nat.max (now st) (due t))
      | None => st
      end
  end.

Definition run (st : state) (es : list event) : state :=
  fold_left step es st.

End TestPanel.

(** ** Colour picker widget: crosses on used colours *)

Module UsedColors.
Import JS DOM.

(** [/#[a-fA-F0-9]{6}/] *)
Definition hexColorRegex : regex :=
  Seq (Chr "#") (Rep 6 (Class [("a", "f"); ("A", "F"); ("0", "9")]%char)).

(** The pattern tried at the front of [s]: the text it matches. *)
Definition match_here (s : string) : option string :=
  match rmatch false hexColorRegex s []
               (fun s' _ => Some [consumed s s']) with
  | Some [m] => Some m
  | _ => None
  end.

(** [text.match(/#[a-fA-F0-9]{6}/g) || []]: the matches from left to
    right; the search goes on behind each match ([skip] counts the
    characters of the last match still to pass). *)
Fixpoint match_all_from (skip : nat) (s : string) : list string :=
  match s with
  | EmptyString => []
  | String _ s' =>
      match skip with
      | S k => match_all_from k s'
      | O =>
          match match_here s with
          | Some m => m :: match_all_from (String.length m - 1) s'
          | None => match_all_from 0 s'
          end
      end
  end.

Definition match_all (text : string) : list string := match_all_from 0 text.

(** An element of class [color-preset], or any other element of the
    page: whether it lies in a [.color-presets-container], whether it
    lies in the first [.used-colors-container], its classes, its colour,
    the number of its [.used-cross] children and its computed
    [position]. *)
Record element : Type := mkElement
  { in_presets_container : bool;
    in_used_section : bool;
    classList : list string;
    data_color : string;
    crosses : nat;
    position : string }.

(** [helptext] is the text of [#id_color_helptext], [used_section] tells
    whether a [.used-colors-container] exists. *)
Record page : Type := mkPage
  { helptext : option string;
    used_section : bool;
    elements : list element }.

Definition is_preset (el : element) : bool :=
  contains (classList el) "color-preset".

Definition has_cross (el : element) : bool :=
  negb (Nat.eqb (crosses el) 0).

(** A cross is appended; a statically positioned element becomes
    relatively positioned. *)
Definition append_cross (mark_used : bool) (el : element) : element :=
  mkElement (in_presets_container el) (in_used_section el)
            (if mark_used then add (classList el) "used" else classList el)
            (data_color el) (S (crosses el))
            (if String.eqb (position el) "static" then "relative"
             else position el).

(** One turn of the loop over [.color-presets-container .color-preset]:
    a preset whose colour is listed and that has no cross yet is marked
    used and gets one. *)
Definition mark_one (used : list string) (el : element) : element :=
  if in_presets_container el && is_preset el then
    if existsb (String.eqb (data_color el)) used then
      if has_cross el then el else append_cross true el
    else el
  else el.

Definition mark_presets (used : list string) (els : list element)
  : list element :=
  map (mark_one used) els.

(** One turn of the loop over [.color-preset.used]. *)
Definition cross_one (el : element) : element :=
  if is_preset el && contains (classList el) "used" then
    if has_cross el then el else append_cross false el
  else el.

Definition cross_used (els : list element) : list element :=
  map cross_one els.

Definition text_colors (pg : page) : list string :=
  match helptext pg with
  | Some text => match_all text
  | None => []
  end.

Definition section_colors (pg : page) : list string :=
  map data_color
      (filter (fun el => in_used_section el && is_preset el) (elements pg)).

Definition addCrossesToUsedColors (pg : page) : page :=
  match text_colors pg with
  | _ :: _ =>
      mkPage (helptext pg) (used_section pg)
             (mark_presets (text_colors pg) (elements pg))
  | [] =>
      let els :=
        if used_section pg
        then mark_presets (section_colors pg) (elements pg)
        else elements pg in
      mkPage (helptext pg) (used_section pg) (cross_used els)
  end.

End UsedColors.

(** * Vocabulary of the statements *)

(** ** Hexadecimal colour strings *)

Definition hex_digits : list ascii :=
  list_ascii_of_string "0123456789abcdefABCDEF".

Definition is_hex_char (c : ascii) : bool := existsb (Ascii.eqb c) hex_digits.

Fixpoint all_hex (s : string) : Prop :=
  match s with
  | String c s' => In c hex_digits /\ all_hex s'
  | EmptyString => True
  end.

(** A [#] followed by [n] hexadecimal digits. *)
Definition hash_hex (n : nat) (s : string) : Prop :=
  exists ds, s = String "#" ds /\ String.length ds = n /\ all_hex ds.

Fixpoint index_of (c : ascii) (l : list ascii) : nat :=
  match l with
  | [] => 0%nat
  | x :: l' => if Ascii.eqb x c then 0%nat else S (index_of c l')
  end.

(** The value of a hexadecimal digit, read off its place among the
    digits. *)
Definition hex_value (c : ascii) : Z :=
  let i := Z.of_nat (index_of c hex_digits) in
  if i <? 16 then i else i - 6.

(** Channel [i] (0, 1 or 2) of six hexadecimal digits. *)
Definition channel (ds : string) (i : nat) : Z :=
  match String.get (2 * i) ds, String.get (2 * i + 1) ds with
  | Some a, Some b => 16 * hex_value a + hex_value b
  | _, _ => 0
  end.

(** Decimal notation of an integer. *)
Definition decimal (z : Z) : string := NilZero.string_of_int (Z.to_int z).

(** The two character classes of the patterns. *)
Definition hex_class : list JS.char_range :=
  [("A", "F"); ("a", "f"); ("0", "9")]%char.

Definition rgba_class : list JS.char_range :=
  [("a", "f"); ("0", "9")]%char.

(** Reading [n] characters of a class off the front of a string. *)
Fixpoint take_class (ic : bool) (rs : list JS.char_range) (n : nat)
         (s : string) : option string :=
  match n with
  | O => Some s
  | S m =>
      match s with
      | String c s' =>
          if JS.in_class ic rs c then take_class ic rs m s' else None
      | EmptyString => None
      end
  end.

Fixpoint all_in_class (ic : bool) (rs : list JS.char_range) (s : string)
  : Prop :=
  match s with
  | String c s' => JS.in_class ic rs c = true /\ all_in_class ic rs s'
  | EmptyString => True
  end.

(** ** Tooltip placement *)

(** The statements use the script's own numbers: sums, differences and
    comparisons below are the binary64 ones. *)


Definition tooltip_height (l : DOM.layout) : float :=
  DOM.rect_height (DOM.tooltipRect l).

(** Not a number. *)
Definition is_nan (x : float) : Prop := Prim2SF x = S754_nan.




(** The bottom edge of the trigger plus 8. *)
Definition candidate_top (l : DOM.layout) : float :=
  (DOM.rect_bottom (DOM.trigger l) + 8)%float.


(** The real number a finite binary64 number stands for. *)
Definition exact (x : float) : option Q :=
  match Prim2SF x with
  | S754_zero _ => Some 0%Q
  | S754_finite s m e =>
      Some ((if s then -1 else 1) * inject_Z (Zpos m) * 2 ^ e)%Q
  | _ => None
  end.

(** The overflow of the bottom margin on the real numbers the doubles
    stand for: the exact sum of the candidate top and the tooltip
    height is above the viewport height minus 8. *)
Definition overflows_exactly (l : DOM.layout) : Prop :=
  match exact (candidate_top l), exact (tooltip_height l),
        exact (DOM.innerHeight l) with
  | Some t, Some h, Some v => (v - 8 < t + h)%Q
  | _, _, _ => False
  end.


Definition wide_viewport : DOM.layout :=
  DOM.mkLayout (DOM.mkRect 100 50 40 20) (DOM.mkRect 0 0 300 40) 1280 90.


#[local] Set Warnings "-inexact-float".
Definition flush_viewport : DOM.layout :=
  DOM.mkLayout (DOM.mkRect 100 0 40 543.7) (DOM.mkRect 0 0 300 40.3)
               1280 600.
#[local] Set Warnings "inexact-float".

(** Titles long enough for [initializeGlobalTooltips], and a cell text
    long enough for [addSmartTooltips]. *)
Definition first_title : string :=
  "First failing test of the checkout suite".

Definition second_title : string :=
  "Second failing test of the checkout suite".


(** ** Tooltip life cycle *)


(** ** Colour presets *)

Definition is_used_preset (el : Widget.preset) : bool :=
  DOM.contains (Widget.classList el) "color-preset"
  && DOM.contains (Widget.classList el) "used".

(** A widget whose input holds black, with a used red preset and a free
    green one. *)
Definition used_red : Widget.page :=
  Widget.mkPage
    (Widget.mkContainer (Some "#000000") (Some "#000000")
       [ Widget.mkPreset ["color-preset"; "used"] "#ff0000";
         Widget.mkPreset ["color-preset"] "#00ff00" ])
    [] [].

(** ** Colour history *)

Definition differs (color : string) : string -> bool :=
  fun c => negb (String.eqb c color).

(** The colours of a run of additions, each once, the most recently
    added first. *)
Definition recent_first (colors : list string) : list string :=
  rev (nodup string_dec colors).

(** ** Exported objects *)

Definition exported : list string :=
  [ "PWAnalystInit"; "PWAnalystTestResults"; "PWAnalystTagAdmin";
    "PWAnalystColorPicker" ].

Definition callable_properties (o : JS.object) : list string :=
  map fst (filter (fun entry => JS.is_callable (Some (snd entry))) o).

(** ** Contrast colour *)

(** The test of [getContrastColor] on channel values. *)
Definition dark_text (r g b : Z) : bool :=
  PrimFloat.ltb 0.5%float
    (ColorPicker.luminance (JS.number_of_Z r) (JS.number_of_Z g)
                           (JS.number_of_Z b)).

(** The one colour on which rounding decides: [#da3af8]. *)
Definition rounding_case (r g b : Z) : bool :=
  (r =? 218) && (g =? 58) && (b =? 248).

(** [scan63 n z p] checks [p] on the [n] machine integers from [z] on. *)
Fixpoint scan63 (n : nat) (z : int) (p : int -> bool) : bool :=
  match n with
  | O => true
  | S m => if p z then scan63 m (z + 1)%uint63 p else false
  end.

(** The comparison of the binary64 test with the exact one on every
    channel value, on machine integers; the partial sums are shared
    between the inner loops. *)
#[local] Set Warnings "-inexact-float".
Definition check_b (r g zrg : int) (frg : float) (b : int) : bool :=
  if Bool.eqb (PrimFloat.ltb 0.5%float
                 ((frg + 0.114 * PrimFloat.of_uint63 b) / 255)%float)
              (127500 <? zrg + 114 * b)%uint63
  then true
  else ((r =? 218) && (g =? 58) && (b =? 248))%uint63.

Definition check_g (r zr : int) (fr : float) (g : int) : bool :=
  scan63 256 0
         (check_b r g (zr + 587 * g)%uint63
                  (fr + 0.587 * PrimFloat.of_uint63 g)%float).

Definition check_r (r : int) : bool :=
  scan63 256 0
         (check_g r (299 * r)%uint63 (0.299 * PrimFloat.of_uint63 r)%float).
#[local] Set Warnings "inexact-float".

(** ** Further vocabulary *)

(** [sub] occurs in [s]. *)
Definition occurs (sub s : string) : Prop :=
  exists pre post, s = pre ++ sub ++ post.

(** A string that holds six hexadecimal digits, with or without [#]. *)
Definition hex6_color (s : string) : Prop :=
  exists ds, (s = ds \/ s = String "#" ds) /\
             String.length ds = 6%nat /\ all_hex ds.

(** A text of ASCII characters. *)
Definition ascii_text (s : string) : Prop :=
  Forall (fun c => (N_of_ascii c < 128)%N) (list_ascii_of_string s).

(** The pattern of [hexToRgba] after the optional [#], and the end of
    the text. *)
Definition rgba_digits : JS.regex :=
  JS.Seq (JS.Group (JS.Rep 2 (JS.Class rgba_class)))
         (JS.Seq (JS.Group (JS.Rep 2 (JS.Class rgba_class)))
                 (JS.Group (JS.Rep 2 (JS.Class rgba_class)))).

Definition at_end (s : string) (caps : JS.captures) : option JS.captures :=
  match s with EmptyString => Some caps | _ => None end.

(** The class of the pattern that reads the help text. *)
Definition cross_class : list JS.char_range :=
  [("a", "f"); ("A", "F"); ("0", "9")]%char.

(** The input holds [color] and the selection marks of the preset
    buttons agree with it. *)
Definition marks_follow (color : string) (pg : Widget.page) : Prop :=
  Widget.colorInput (Widget.widget pg) = Some color /\
  forall j q,
    nth_error (Widget.presets (Widget.widget pg)) j = Some q ->
    DOM.contains (Widget.classList q) "color-preset" = true ->
    (DOM.contains (Widget.classList q) "selected" = true
     <-> Widget.data_color q = color).

(** The colours a run of change events hands to the history. *)
Definition accepted_colors (css : string -> bool)
           (es : list HistoryEvents.change) : list string :=
  map HistoryEvents.target_value
      (filter (fun e =>
                 DOM.contains (HistoryEvents.target_classes e)
                              "advanced-color-picker"
                 && ColorPicker.isValidColor css
                      (HistoryEvents.target_value e)) es).

(** The panel is out of sight: not displayed, the overlay hidden, the
    page free to scroll. *)
Definition panel_hidden (d : TestPanel.page) : Prop :=
  exists p o,
    TestPanel.test_detail_panel d = Some p /\
    TestPanel.panel_overlay d = Some o /\
    TestPanel.display p = "none" /\
    DOM.contains o "hidden" = true /\
    TestPanel.body_overflow d = "".

(** The classes of the panel say it has slid out: it carries
    [translate-x-full] and not [translate-x-0]. *)
Definition panel_slid_out (d : TestPanel.page) : Prop :=
  exists p,
    TestPanel.test_detail_panel d = Some p /\
    DOM.contains (TestPanel.panel_classes p) "translate-x-full" = true /\
    DOM.contains (TestPanel.panel_classes p) "translate-x-0" = false.

(** The classes of the panel say it has slid in. *)
Definition panel_slid_in (d : TestPanel.page) : Prop :=
  exists p,
    TestPanel.test_detail_panel d = Some p /\
    DOM.contains (TestPanel.panel_classes p) "translate-x-0" = true /\
    DOM.contains (TestPanel.panel_classes p) "translate-x-full" = false.

(** [n] global tooltips with the identifiers [0 .. n-1], in this order,
    and nothing else. *)
Definition tooltip_row (n : nat) (body : list DOM.node) : Prop :=
  map DOM.node_id body = seq 0 n /\
  Forall (fun nd => DOM.className nd = "global-tooltip") body.

(** Sample pages: a [toLowerCase] for strings without capitals, a
    palette of two options, a closed panel, a help text that lists two
    colours. *)
Definition same_case (s : string) : string := s.

Definition two_options : Palette.state :=
  Palette.mkState (Palette.mkInput "#123456" None "" "")
                  [ Palette.mkSwatch ["color-option"] "#ff0000";
                    Palette.mkSwatch ["color-option"] "#00ff00" ]
                  [] [].

Definition closed_panel : TestPanel.state :=
  TestPanel.mkState
    (TestPanel.mkPage
       (Some (TestPanel.mkPanel "none" ["fixed"; "translate-x-full"]))
       (Some ["overlay"; "hidden"]) "")
    [] 0.

Definition second_listed : UsedColors.page :=
  UsedColors.mkPage (Some "used: #ef4444, #3b82f6") false
    [ UsedColors.mkElement true false ["color-preset"] "#3b82f6" 0 "static" ].

Definition helped_page : UsedColors.page :=
  UsedColors.mkPage (Some "used: #ef4444, #3b82f6") false
    [ UsedColors.mkElement true false ["color-preset"] "#ef4444" 0 "static";
      UsedColors.mkElement true false ["color-preset"] "#10b981" 0 "static" ].

(** * Properties *)

(** ** Colour validation and conversion *)

Section Patterns.

Lemma is_hex_char_In c : is_hex_char c = true <-> In c hex_digits.
Proof.
  unfold is_hex_char. rewrite existsb_exists. split.
  - intros [x [Hx He]]. apply Ascii.eqb_eq in He. now subst.
  - intros H. exists c. split; [assumption | apply Ascii.eqb_refl].
Qed.

(** The classes of the patterns, character by character. *)
Lemma hex_class_chars c : JS.in_class false hex_class c = is_hex_char c.
Proof. destruct c as [[] [] [] [] [] [] [] []]; reflexivity. Qed.

Lemma rgba_class_chars c : JS.in_class true rgba_class c = is_hex_char c.
Proof. destruct c as [[] [] [] [] [] [] [] []]; reflexivity. Qed.

Lemma hash_class_chars ic c :
  JS.in_class ic [("#", "#")%char] c = Ascii.eqb c "#".
Proof. destruct ic; destruct c as [[] [] [] [] [] [] [] []]; reflexivity. Qed.

Lemma hex_not_hash c : is_hex_char c = true -> Ascii.eqb c "#" = false.
Proof.
  destruct c as [[] [] [] [] [] [] [] []]; intros H;
    first [reflexivity | discriminate H].
Qed.

Lemma hash_not_hex : is_hex_char "#" = false.
Proof. reflexivity. Qed.

(** A counted repetition of a class reads that many characters. *)
Lemma rmatch_rep_class ic rs n : forall s caps k,
  JS.rmatch ic (JS.Rep n (JS.Class rs)) s caps k =
  match take_class ic rs n s with
  | Some rest => k rest caps
  | None => None
  end.
Proof.
  induction n as [|n IH]; intros s caps k.
  - reflexivity.
  - destruct s as [|c s].
    + reflexivity.
    + change (JS.rmatch ic (JS.Rep (S n) (JS.Class rs)) (String c s) caps k)
        with (if JS.in_class ic rs c
              then JS.rmatch ic (JS.Rep n (JS.Class rs)) s caps k
              else None).
      cbn [take_class].
      destruct (JS.in_class ic rs c); [apply IH | reflexivity].
Qed.

Lemma take_class_all ic rs n : forall s,
  take_class ic rs n s = Some "" <->
  String.length s = n /\ all_in_class ic rs s.
Proof.
  induction n as [|n IH]; intros s; destruct s as [|c s];
    cbn [take_class String.length all_in_class].
  - split; [intros _; split; [reflexivity | exact I] | reflexivity].
  - split; [discriminate | intros [H _]; discriminate].
  - split; [discriminate | intros [H _]; discriminate].
  - destruct (JS.in_class ic rs c) eqn:Hc.
    + rewrite IH. split.
      * intros [Hl Ha]. split; [now f_equal | split; [reflexivity | exact Ha]].
      * intros [Hl [_ Ha]]. split; [now inversion Hl | exact Ha].
    + split; [discriminate | intros [_ [H _]]; discriminate].
Qed.

Lemma all_in_hex_class s : all_in_class false hex_class s <-> all_hex s.
Proof.
  induction s as [|c s IH]; cbn [all_in_class all_hex]; [tauto|].
  rewrite hex_class_chars, is_hex_char_In, IH. tauto.
Qed.

Lemma take_hex_all n s :
  take_class false hex_class n s = Some "" <->
  String.length s = n /\ all_hex s.
Proof. rewrite take_class_all, all_in_hex_class. tauto. Qed.

Lemma hash_hex_tail n s :
  hash_hex n (String "#" s) <-> String.length s = n /\ all_hex s.
Proof.
  split.
  - intros [ds [E H]]. inversion E; subst. exact H.
  - intros H. exists s. split; [reflexivity | exact H].
Qed.

Lemma hash_hex_nonempty n : ~ hash_hex n "".
Proof. intros [ds [H _]]. discriminate. Qed.

(** What the validation pattern decides on a string. *)
Lemma test_hexRegex (r : JS.regex) s :
  r = JS.Seq (JS.Chr "#")
        (JS.Group (JS.Alt (JS.Rep 6 (JS.Class hex_class))
                          (JS.Rep 3 (JS.Class hex_class)))) ->
  JS.test_anchored false r s = true <-> hash_hex 6 s \/ hash_hex 3 s.
Proof.
  intros ->. unfold JS.test_anchored, JS.exec_anchored.
  destruct s as [|c s].
  - cbn. split; [discriminate|].
    intros [H | H]; elim (hash_hex_nonempty _ H).
  - set (k := fun (s' : string) (caps : JS.captures) =>
                match s' with EmptyString => Some caps | _ => None end).
    change (JS.rmatch false _ (String c s) [] k)
      with (if JS.in_class false [("#", "#")%char] c
            then
              match
                JS.rmatch false (JS.Rep 6 (JS.Class hex_class)) s []
                  (fun s' caps' => k s' (caps' ++ [JS.consumed s s'])%list)
              with
              | Some res => Some res
              | None =>
                  JS.rmatch false (JS.Rep 3 (JS.Class hex_class)) s []
                    (fun s' caps' =>
                       k s' (caps' ++ [JS.consumed s s'])%list)
              end
            else None).
    rewrite hash_class_chars, !rmatch_rep_class.
    destruct (Ascii.eqb c "#") eqn:Hc.
    + apply Ascii.eqb_eq in Hc. subst c.
      rewrite !hash_hex_tail, <- (take_hex_all 6 s), <- (take_hex_all 3 s).
      destruct (take_class false hex_class 6 s) as [[|c6 r6]|];
        destruct (take_class false hex_class 3 s) as [[|c3 r3]|]; cbn;
        split; intros H; try reflexivity; try discriminate;
        try (left; reflexivity); try (right; reflexivity);
        try (destruct H as [H|H]; discriminate).
    + split; [discriminate|].
      intros [[ds [H _]] | [ds [H _]]]; inversion H; subst;
        rewrite Ascii.eqb_refl in Hc; discriminate.
Qed.

Lemma tag_isValidColor_hex s :
  TagAdmin.isValidColor s = true <-> hash_hex 3 s \/ hash_hex 6 s.
Proof.
  unfold TagAdmin.isValidColor. destruct s as [|c s].
  - split; [discriminate|]. intros [H | H]; elim (hash_hex_nonempty _ H).
  - rewrite (test_hexRegex TagAdmin.hexRegex); [tauto | reflexivity].
Qed.

Lemma picker_isValidColor_hex_or_css css s :
  ColorPicker.isValidColor css s = true <->
  (hash_hex 3 s \/ hash_hex 6 s) \/ (s <> "" /\ css s = true).
Proof.
  unfold ColorPicker.isValidColor. destruct s as [|c s].
  - split; [discriminate|].
    intros [[H | H] | [H _]];
      [elim (hash_hex_nonempty _ H) | elim (hash_hex_nonempty _ H)
       | now elim H].
  - pose proof (test_hexRegex ColorPicker.hexRegex (String c s) eq_refl) as T.
    destruct (JS.test_anchored false ColorPicker.hexRegex (String c s)).
    + split; [intros _; left; tauto | reflexivity].
    + split.
      * intros H. right. split; [discriminate | exact H].
      * intros [H | [_ H]]; [| exact H].
        assert (false = true) by (apply T; tauto). discriminate.
Qed.

(** C3 (amended).  [isValidColor] of the tag admin script returns true
    exactly on a [#] followed by three or six hexadecimal digits and
    false on every other string.  [isValidColor] of the advanced colour
    picker returns true on those strings and, besides, on every
    non-empty string the browser parses as a colour; it returns false
    on every other string. *)
Theorem isValidColor_accepts :
  (forall s,
      TagAdmin.isValidColor s = true <-> hash_hex 3 s \/ hash_hex 6 s) /\
  (forall css s,
      ColorPicker.isValidColor css s = true <->
      (hash_hex 3 s \/ hash_hex 6 s) \/ (s <> "" /\ css s = true)).
Proof.
  split; [exact tag_isValidColor_hex | exact picker_isValidColor_hex_or_css].
Qed.

(** The colour keyword [red] is no hexadecimal colour string, and the
    advanced colour picker takes it for a valid colour. *)
Lemma isValidColor_accepts_red :
  ColorPicker.isValidColor Browser.accepts_color "red" = true /\
  ~ (hash_hex 3 "red" \/ hash_hex 6 "red").
Proof.
  split; [reflexivity|].
  intros [[ds [H _]] | [ds [H _]]]; discriminate.
Qed.

(** Case analysis on a hexadecimal digit. *)
Ltac each_hex H :=
  unfold hex_digits in H; cbn [list_ascii_of_string In] in H;
  repeat (destruct H as [H | H]; [subst |]); [.. | contradiction].

Lemma parseInt16_pair a b :
  In a hex_digits -> In b hex_digits ->
  JS.parseInt16 (String a (String b ""))
  = Some (16 * hex_value a + hex_value b).
Proof. intros Ha Hb. each_hex Ha; each_hex Hb; reflexivity. Qed.

Lemma hex_value_range c : In c hex_digits -> 0 <= hex_value c <= 15.
Proof. intros H. each_hex H; vm_compute; split; discriminate. Qed.

Lemma six_chars ds :
  String.length ds = 6%nat ->
  exists d1 d2 d3 d4 d5 d6,
    ds = String d1 (String d2 (String d3 (String d4 (String d5
           (String d6 ""))))).
Proof.
  destruct ds as [|d1 [|d2 [|d3 [|d4 [|d5 [|d6 [|]]]]]]]; try discriminate.
  intros _. now exists d1, d2, d3, d4, d5, d6.
Qed.

(** The conversion pattern on six digits, with or without the [#]. *)
Lemma exec_rgbaRegex_six (hash : bool) d1 d2 d3 d4 d5 d6 :
  let ds :=
    String d1 (String d2 (String d3 (String d4 (String d5
      (String d6 ""))))) in
  all_hex ds ->
  JS.exec_anchored true TagAdmin.rgbaRegex
                   (if hash then String "#" ds else ds)
  = Some [String d1 (String d2 ""); String d3 (String d4 "");
          String d5 (String d6 "")].
Proof.
  intros ds H. subst ds. cbn [all_hex] in H.
  destruct H as (H1 & H2 & H3 & H4 & H5 & H6 & _).
  apply is_hex_char_In in H1, H2, H3, H4, H5, H6.
  unfold JS.exec_anchored, TagAdmin.rgbaRegex.
  change [("a", "f"); ("0", "9")]%char with rgba_class.
  destruct hash; cbn [JS.rmatch];
    rewrite ?hash_class_chars, ?rgba_class_chars,
      ?H1, ?H2, ?H3, ?H4, ?H5, ?H6, ?(hex_not_hash d1 H1);
    reflexivity.
Qed.

(** C4.  On six hexadecimal digits [ds], written with or without the
    leading [#], [hexToRgba] returns ["rgba(r, g, b, alpha)"], where
    [r], [g] and [b] are the values in base 16 of the three pairs of
    digits, printed in decimal, and [alpha] is printed as the script
    prints it. *)
Theorem hexToRgba_six_digits (s ds alpha : string) :
  String.length ds = 6%nat -> all_hex ds -> s = ds \/ s = String "#" ds ->
  TagAdmin.hexToRgba s alpha =
  "rgba(" ++ decimal (channel ds 0) ++ ", " ++ decimal (channel ds 1)
          ++ ", " ++ decimal (channel ds 2) ++ ", " ++ alpha ++ ")".
Proof.
  intros Hl Ha Hs.
  destruct (six_chars ds Hl) as (d1 & d2 & d3 & d4 & d5 & d6 & ->).
  assert (E : JS.exec_anchored true TagAdmin.rgbaRegex s =
              Some [String d1 (String d2 ""); String d3 (String d4 "");
                    String d5 (String d6 "")]).
  { destruct Hs as [-> | ->].
    - exact (exec_rgbaRegex_six false d1 d2 d3 d4 d5 d6 Ha).
    - exact (exec_rgbaRegex_six true d1 d2 d3 d4 d5 d6 Ha). }
  unfold TagAdmin.hexToRgba. rewrite E.
  cbn [all_hex] in Ha. destruct Ha as (H1 & H2 & H3 & H4 & H5 & H6 & _).
  rewrite (parseInt16_pair d1 d2 H1 H2), (parseInt16_pair d3 d4 H3 H4),
    (parseInt16_pair d5 d6 H5 H6).
  reflexivity.
Qed.

(** [hexToRgba('#ff0000', 0.5)] is ['rgba(255, 0, 0, 0.5)']. *)
Lemma hexToRgba_six_digits_red :
  String.length "ff0000" = 6%nat /\ all_hex "ff0000" /\
  TagAdmin.hexToRgba "#ff0000" "0.5" = "rgba(255, 0, 0, 0.5)".
Proof.
  assert (Ha : all_hex "ff0000") by (cbn; intuition auto).
  split; [reflexivity | split; [exact Ha |]].
  exact (hexToRgba_six_digits "#ff0000" "ff0000" "0.5" eq_refl Ha
           (or_intror eq_refl)).
Defined.

(** C9.  A [#] followed by three hexadecimal digits passes
    [isValidColor], and [hexToRgba] returns it unchanged whatever the
    alpha: the conversion pattern asks for six digits. *)
Theorem hexToRgba_three_digits (c alpha : string) :
  hash_hex 3 c ->
  TagAdmin.isValidColor c = true /\ TagAdmin.hexToRgba c alpha = c.
Proof.
  intros H. split.
  - apply tag_isValidColor_hex. now left.
  - destruct H as (ds & -> & Hl & Ha).
    destruct ds as [|d1 [|d2 [|d3 [|]]]]; try discriminate.
    cbn [all_hex] in Ha. destruct Ha as (H1 & H2 & H3 & _).
    apply is_hex_char_In in H1, H2, H3.
    assert (E : JS.exec_anchored true TagAdmin.rgbaRegex
                  (String "#" (String d1 (String d2 (String d3 ""))))
                = None).
    { unfold JS.exec_anchored, TagAdmin.rgbaRegex.
      change [("a", "f"); ("0", "9")]%char with rgba_class.
      cbn [JS.rmatch].
      rewrite ?hash_class_chars, ?rgba_class_chars, ?H1, ?H2, ?H3,
        ?hash_not_hex.
      reflexivity. }
    unfold TagAdmin.hexToRgba. now rewrite E.
Qed.

Lemma hexToRgba_three_digits_abc :
  hash_hex 3 "#abc" /\
  TagAdmin.isValidColor "#abc" = true /\
  TagAdmin.hexToRgba "#abc" "0.1" = "#abc".
Proof.
  assert (H : hash_hex 3 "#abc").
  { exists "abc". split; [reflexivity | split; [reflexivity |]].
    cbn; intuition auto. }
  split; [exact H | exact (hexToRgba_three_digits "#abc" "0.1" H)].
Defined.

End Patterns.

(** ** Contrast colour *)

Section Contrast.

#[local] Set Warnings "-inexact-float".

Lemma scan63_spec p : forall n z,
  Uint63.to_Z z + Z.of_nat n <= wB ->
  scan63 n z p = true ->
  forall x, Uint63.to_Z z <= Uint63.to_Z x < Uint63.to_Z z + Z.of_nat n ->
            p x = true.
Proof.
  induction n as [|n IH]; intros z Hb H x Hx; [lia|].
  cbn [scan63] in H. destruct (p z) eqn:Hz; [|discriminate].
  destruct (Z.eq_dec (Uint63.to_Z x) (Uint63.to_Z z)) as [E|Hne].
  - apply to_Z_inj in E. now subst.
  - assert (E1 : Uint63.to_Z (z + 1)%uint63 = Uint63.to_Z z + 1).
    { rewrite Uint63.add_spec. change (Uint63.to_Z 1) with 1.
      pose proof (to_Z_bounded z). apply Z.mod_small. lia. }
    apply (IH (z + 1)%uint63); [rewrite E1; lia | exact H | rewrite E1; lia].
Qed.

(** All 256 x 256 x 256 channel values, by evaluation. *)
Lemma all_channels_agree : scan63 256 0 check_r = true.
Proof. vm_cast_no_check (eq_refl true). Qed.

(** Channel values as machine integers. *)
Lemma to_Z_of_channel z : 0 <= z <= 255 -> Uint63.to_Z (Uint63.of_Z z) = z.
Proof.
  intros H. rewrite of_Z_spec. apply Z.mod_small.
  change wB with 9223372036854775808. lia.
Qed.

Lemma number_of_channel z :
  0 <= z -> JS.number_of_Z z = PrimFloat.of_uint63 (Uint63.of_Z z).
Proof. destruct z; [reflexivity | reflexivity | lia]. Qed.

Lemma weighted_sum r g b :
  0 <= r <= 255 -> 0 <= g <= 255 -> 0 <= b <= 255 ->
  Uint63.to_Z (299 * Uint63.of_Z r + 587 * Uint63.of_Z g
               + 114 * Uint63.of_Z b)%uint63
  = 299 * r + 587 * g + 114 * b.
Proof.
  intros Hr Hg Hb.
  rewrite !Uint63.add_spec, !Uint63.mul_spec, !to_Z_of_channel by assumption.
  change (Uint63.to_Z 299) with 299. change (Uint63.to_Z 587) with 587.
  change (Uint63.to_Z 114) with 114.
  change wB with 9223372036854775808.
  rewrite (Z.mod_small (299 * r)), (Z.mod_small (587 * g)),
    (Z.mod_small (114 * b)) by lia.
  rewrite (Z.mod_small (299 * r + 587 * g)) by lia.
  apply Z.mod_small. lia.
Qed.

(** Away from [#da3af8] the binary64 test and the exact comparison
    agree. *)
Lemma channels_agree r g b :
  0 <= r <= 255 -> 0 <= g <= 255 -> 0 <= b <= 255 ->
  rounding_case r g b = false ->
  dark_text r g b = (127500 <? 299 * r + 587 * g + 114 * b).
Proof.
  intros Hr Hg Hb He.
  assert (Hw : 0 + Z.of_nat 256 <= wB)
    by (change wB with 9223372036854775808; lia).
  assert (H1 : check_r (Uint63.of_Z r) = true).
  { apply (scan63_spec check_r 256 0%uint63 Hw all_channels_agree).
    rewrite to_Z_of_channel by assumption. change (Uint63.to_Z 0) with 0. lia. }
  unfold check_r in H1.
  assert (H2 := scan63_spec _ 256 0%uint63 Hw H1 (Uint63.of_Z g)).
  rewrite to_Z_of_channel in H2 by assumption.
  specialize (H2 ltac:(change (Uint63.to_Z 0) with 0; lia)).
  unfold check_g in H2.
  assert (H3 := scan63_spec _ 256 0%uint63 Hw H2 (Uint63.of_Z b)).
  rewrite to_Z_of_channel in H3 by assumption.
  specialize (H3 ltac:(change (Uint63.to_Z 0) with 0; lia)).
  unfold check_b in H3.
  unfold dark_text, ColorPicker.luminance.
  rewrite !number_of_channel by lia.
  destruct (Bool.eqb _ _) eqn:E in H3.
  - apply Bool.eqb_prop in E. rewrite E.
    apply eq_true_iff_eq. rewrite Uint63.ltb_spec, Z.ltb_lt.
    rewrite weighted_sum by assumption. change (Uint63.to_Z 127500) with 127500.
    reflexivity.
  - exfalso. apply andb_prop in H3. destruct H3 as [H3 Hbb].
    apply andb_prop in H3. destruct H3 as [Hrr Hgg].
    apply Uint63.eqb_spec in Hrr, Hgg, Hbb.
    apply (f_equal Uint63.to_Z) in Hrr, Hgg, Hbb.
    rewrite to_Z_of_channel in Hrr, Hgg, Hbb by assumption.
    change (Uint63.to_Z 218) with 218 in Hrr.
    change (Uint63.to_Z 58) with 58 in Hgg.
    change (Uint63.to_Z 248) with 248 in Hbb.
    subst. discriminate He.
Qed.

Lemma channels_six d1 d2 d3 d4 d5 d6 :
  let ds :=
    String d1 (String d2 (String d3 (String d4 (String d5
      (String d6 ""))))) in
  all_hex ds ->
  ColorPicker.channels (String "#" ds)
  = (Some (channel ds 0), Some (channel ds 1), Some (channel ds 2)).
Proof.
  intros ds H. subst ds. cbn [all_hex] in H.
  destruct H as (H1 & H2 & H3 & H4 & H5 & H6 & _).
  unfold ColorPicker.channels.
  change (JS.remove_first "#" (String "#" ?s)) with s.
  unfold JS.substr. cbn [substring].
  rewrite (parseInt16_pair d1 d2 H1 H2), (parseInt16_pair d3 d4 H3 H4),
    (parseInt16_pair d5 d6 H5 H6).
  reflexivity.
Qed.

Lemma channel_range ds i :
  String.length ds = 6%nat -> all_hex ds -> (i < 3)%nat ->
  0 <= channel ds i <= 255.
Proof.
  intros Hl Ha Hi.
  destruct (six_chars ds Hl) as (d1 & d2 & d3 & d4 & d5 & d6 & ->).
  cbn [all_hex] in Ha. destruct Ha as (H1 & H2 & H3 & H4 & H5 & H6 & _).
  apply hex_value_range in H1, H2, H3, H4, H5, H6.
  destruct i as [|[|[|i]]]; [| | | lia]; unfold channel;
    cbn [String.get Nat.mul Nat.add]; lia.
Qed.

Lemma getContrastColor_dark_text ds :
  String.length ds = 6%nat -> all_hex ds ->
  ColorPicker.getContrastColor (String "#" ds)
  = if dark_text (channel ds 0) (channel ds 1) (channel ds 2)
    then "#000000" else "#ffffff".
Proof.
  intros Hl Ha.
  destruct (six_chars ds Hl) as (d1 & d2 & d3 & d4 & d5 & d6 & ->).
  unfold ColorPicker.getContrastColor.
  rewrite (channels_six d1 d2 d3 d4 d5 d6 Ha).
  reflexivity.
Qed.

(** C10 (amended).  On a [#] followed by six hexadecimal digits
    [getContrastColor] returns one of ['#000000'] and ['#ffffff']: it
    returns ['#000000'] exactly when the luminance
    [(0.299 r + 0.587 g + 0.114 b) / 255], computed in binary64
    arithmetic, exceeds 0.5.  For every colour but [#da3af8], that is
    [(r, g, b) = (218, 58, 248)], this is the case exactly when
    [299 r + 587 g + 114 b > 127500]. *)
Theorem getContrastColor_threshold (ds : string) :
  String.length ds = 6%nat -> all_hex ds ->
  let color := ColorPicker.getContrastColor (String "#" ds) in
  let r := channel ds 0 in
  let g := channel ds 1 in
  let b := channel ds 2 in
  (color = "#000000" \/ color = "#ffffff") /\
  (color = "#000000" <-> dark_text r g b = true) /\
  ((r, g, b) <> (218, 58, 248) ->
   (color = "#000000" <-> 127500 < 299 * r + 587 * g + 114 * b)).
Proof.
  intros Hl Ha color r g b.
  assert (E : color = if dark_text r g b then "#000000" else "#ffffff")
    by (apply getContrastColor_dark_text; assumption).
  assert (D : color = "#000000" <-> dark_text r g b = true).
  { rewrite E. destruct (dark_text r g b); split; intros H;
      try reflexivity; discriminate. }
  split; [rewrite E; destruct (dark_text r g b); tauto|].
  split; [exact D|].
  intros Hne. rewrite D.
  assert (Hr : 0 <= r <= 255) by (apply channel_range; auto).
  assert (Hg : 0 <= g <= 255) by (apply channel_range; auto).
  assert (Hb : 0 <= b <= 255) by (apply channel_range; auto).
  rewrite (channels_agree r g b Hr Hg Hb).
  - apply Z.ltb_lt.
  - unfold rounding_case.
    destruct (r =? 218) eqn:Er; [|reflexivity].
    destruct (g =? 58) eqn:Eg; [|reflexivity].
    destruct (b =? 248) eqn:Eb; [|reflexivity].
    apply Z.eqb_eq in Er, Eg, Eb. exfalso. apply Hne. congruence.
Qed.

(** On white the text is black. *)
Lemma getContrastColor_threshold_white :
  String.length "ffffff" = 6%nat /\ all_hex "ffffff" /\
  ColorPicker.getContrastColor "#ffffff" = "#000000".
Proof.
  assert (Ha : all_hex "ffffff") by (cbn; intuition auto).
  split; [reflexivity | split; [exact Ha |]].
  apply (proj2 (proj2 (getContrastColor_threshold "ffffff" eq_refl Ha))).
  - discriminate.
  - reflexivity.
Defined.

(** On [#da3af8] the exact sum is 127500, not more, and the binary64
    luminance is 0.5000000000000001: the text is black. *)
Lemma getContrastColor_rounding :
  ColorPicker.getContrastColor "#da3af8" = "#000000" /\
  ~ (127500 < 299 * 218 + 587 * 58 + 114 * 248).
Proof. split; [vm_compute; reflexivity | intros H; discriminate H]. Qed.

End Contrast.

(** ** Tooltip placement *)

Section Placement.
Import DOM.





(** The two scripts place their tooltips alike. *)
Lemma smart_position_same l : TestResults.position l = Init.position l.
Proof. reflexivity. Qed.










(** The test is the script's, rounding included.  A trigger whose
    bottom edge is the double next to 543.7 and a tooltip as high as
    the double next to 40.3, in a viewport 600 high: the candidate top
    is the double next to 551.7, and the real numbers these doubles
    stand for add up to 592 + 3/2^46; the script rounds the sum to 592
    and keeps the tooltip below the trigger, global or smart. *)
Lemma tooltip_kept_below :
  overflows_exactly flush_viewport /\
  fst (Init.position flush_viewport) = candidate_top flush_viewport /\
  fst (TestResults.position flush_viewport)
  = candidate_top flush_viewport /\
  (candidate_top flush_viewport
   =? rect_top (trigger flush_viewport) - tooltip_height flush_viewport - 8
  )%float = false.
Proof. repeat split; vm_compute; reflexivity. Qed.

End Placement.

(** ** Colour history *)

Section History.
Import ColorPicker.

Lemma filter_differs_notin color l :
  ~ In color l -> filter (differs color) l = l.
Proof.
  induction l as [|x l IH]; intros Hn; [reflexivity|].
  cbn [filter]. destruct (differs color x) eqn:Hx.
  - f_equal. apply IH. intros H. apply Hn. now right.
  - exfalso. apply Hn. left.
    unfold differs in Hx. apply negb_false_iff, String.eqb_eq in Hx.
    now subst.
Qed.

Lemma In_firstn {A} (x : A) : forall l n, In x (firstn n l) -> In x l.
Proof.
  induction l as [|y l IH]; intros [|n]; cbn [firstn In]; try tauto.
  intros [H|H]; [now left | right; eapply IH; eauto].
Qed.

Lemma NoDup_firstn_prefix {A} n (l : list A) :
  NoDup l -> NoDup (firstn n l).
Proof.
  intros H. revert n. induction H as [|x l Hx Hl IH]; intros [|n];
    cbn [firstn]; try constructor.
  - intros Hin. apply Hx. eapply In_firstn; eauto.
  - apply IH.
Qed.

(** Cutting to [S n] entries before dropping one colour and cutting to
    [n] loses nothing, as long as no colour occurs twice. *)
Lemma firstn_filter_firstn color : forall l n,
  NoDup l ->
  firstn n (filter (differs color) (firstn (S n) l))
  = firstn n (filter (differs color) l).
Proof.
  induction l as [|x l IH]; intros n Hnd; [reflexivity|].
  inversion Hnd as [|? ? Hx Hl]; subst.
  cbn [firstn filter]. destruct (differs color x) eqn:Hd.
  - destruct n as [|n]; [reflexivity|].
    cbn [firstn]. f_equal. now apply IH.
  - unfold differs in Hd. apply negb_false_iff, String.eqb_eq in Hd.
    subst x.
    rewrite (filter_differs_notin color l Hx).
    rewrite filter_differs_notin.
    + rewrite firstn_firstn. f_equal. lia.
    + intros H. apply Hx. eapply In_firstn; eauto.
Qed.

Lemma nodup_snoc color : forall l,
  nodup string_dec (l ++ [color])%list
  = (filter (differs color) (nodup string_dec l) ++ [color])%list.
Proof.
  induction l as [|x l IH]; [reflexivity|].
  cbn [app nodup].
  destruct (in_dec string_dec x (l ++ [color])%list) as [Hin|Hnin];
    destruct (in_dec string_dec x l) as [Hl|Hnl].
  - exact IH.
  - apply in_app_or in Hin. destruct Hin as [Hin|Hin]; [contradiction|].
    destruct Hin as [<-|[]].
    cbn [filter]. unfold differs at 1. rewrite String.eqb_refl.
    exact IH.
  - exfalso. apply Hnin. apply in_or_app. now left.
  - cbn [filter]. destruct (differs color x) eqn:Hd.
    + cbn [app]. now rewrite IH.
    + exfalso. apply Hnin. apply in_or_app. right. left.
      unfold differs in Hd. apply negb_false_iff, String.eqb_eq in Hd.
      now subst.
Qed.

Lemma recent_first_snoc color l :
  recent_first (l ++ [color])%list
  = color :: filter (differs color) (recent_first l).
Proof.
  unfold recent_first. rewrite nodup_snoc, rev_app_distr, filter_rev.
  reflexivity.
Qed.

Lemma NoDup_recent_first l : NoDup (recent_first l).
Proof. apply NoDup_rev, NoDup_nodup. Qed.

Lemma replay_snoc colors color :
  replay (colors ++ [color])%list
  = addToColorHistory color (replay colors).
Proof. unfold replay. now rewrite fold_left_app. Qed.

(** The stored list is the ten most recently added colours, the latest
    first. *)
Lemma replay_recent_first colors :
  getColorHistory (replay colors)
  = firstn MAX_HISTORY (recent_first colors).
Proof.
  induction colors as [|color colors IH] using rev_ind; [reflexivity|].
  rewrite replay_snoc, recent_first_snoc.
  unfold addToColorHistory. cbn [getColorHistory]. rewrite IH.
  unfold MAX_HISTORY. cbn [firstn]. f_equal.
  apply (firstn_filter_firstn color (recent_first colors) 9).
  apply NoDup_recent_first.
Qed.

Lemma filter_differs_shorter color l :
  In color l ->
  (List.length (filter (differs color) l) < List.length l)%nat.
Proof.
  induction l as [|x l IH]; intros Hin; [destruct Hin|].
  cbn [filter]. destruct (differs color x) eqn:Hd.
  - cbn [List.length]. destruct Hin as [->|Hin].
    + unfold differs in Hd. rewrite String.eqb_refl in Hd. discriminate.
    + specialize (IH Hin). lia.
  - pose proof (filter_length_le (differs color) l).
    cbn [List.length]. lia.
Qed.

(** C2.  Let the stored list be reached from the empty storage by the
    additions [colors], and let [color] be added.  The new list has at
    most 10 entries and no duplicate; it lists the ten most recently
    added colours, the latest first, so [color] is its head; and when
    [color] was already stored, the new list is [color] followed by the
    old list without it: the colour has moved to the front. *)
Theorem color_history_invariant (colors : list string) (color : string) :
  let old := getColorHistory (replay colors) in
  let new := getColorHistory (addToColorHistory color (replay colors)) in
  (List.length new <= 10)%nat /\
  NoDup new /\
  new = firstn 10 (recent_first (colors ++ [color])%list) /\
  hd_error new = Some color /\
  (In color old -> new = color :: filter (differs color) old).
Proof.
  intros old new.
  assert (E : new = firstn 10 (recent_first (colors ++ [color])%list)).
  { subst new. rewrite <- replay_snoc. apply replay_recent_first. }
  assert (Hold : (List.length old <= 10)%nat).
  { subst old. rewrite replay_recent_first. apply firstn_le_length. }
  split; [rewrite E; apply firstn_le_length|].
  split; [rewrite E; apply NoDup_firstn_prefix, NoDup_recent_first|].
  split; [exact E|].
  split; [reflexivity|].
  intros Hin. subst new. unfold addToColorHistory. cbn [getColorHistory].
  fold old. apply firstn_all2. cbn [List.length]. unfold MAX_HISTORY.
  pose proof (filter_differs_shorter color old Hin) as Hlt.
  change (fun c : string => negb (c =? color)%string) with (differs color).
  lia.
Qed.

Lemma color_history_invariant_again :
  let colors := ["#111111"; "#222222"; "#333333"] in
  In "#222222" (getColorHistory (replay colors)) /\
  getColorHistory (addToColorHistory "#222222" (replay colors))
  = ["#222222"; "#333333"; "#111111"].
Proof.
  intros colors.
  assert (Hin : In "#222222" (getColorHistory (replay colors)))
    by (right; left; reflexivity).
  split; [exact Hin |].
  exact (proj2 (proj2 (proj2 (proj2
           (color_history_invariant colors "#222222")))) Hin).
Defined.

End History.

(** ** Tooltip life cycle *)

Section TooltipLifeCycle.
Import DOM.













(** The removal timer looks at [currentTooltip] when it fires: after the
    quick move above it takes the second tooltip and leaves the first
    one attached. *)
Lemma removal_timer_takes_current :
  let st :=
    Init.run [Init.MouseEnter wide_viewport first_title; Init.MouseLeave;
              Init.MouseEnter wide_viewport second_title;
              Init.TimerFires; Init.TimerFires] in
  map textContent (Init.body st) = [first_title] /\
  Init.currentTooltip st = None /\ Init.timers st = [].
Proof. repeat split. Qed.

(** An element whose title has at most 30 characters has no listener:
    the pointer entering it shows nothing. *)
Lemma short_title_shows_nothing st l title :
  (String.length title <= 30)%nat ->
  Init.step st (Init.MouseEnter l title) = st.
Proof.
  intros H. cbn [Init.step]. unfold Init.listens.
  now rewrite (proj2 (Nat.ltb_ge 30 (String.length title)) H).
Qed.

End TooltipLifeCycle.

(** ** Colour presets *)

Section Presets.
Import DOM Widget.

(** The revision with used colours leaves the input alone when a used
    preset is clicked, and dispatches nothing. *)
Lemma extended_click_used t pg el :
  target_element pg t = Some el -> is_used_preset el = true ->
  widget (Extended.click t pg) = widget pg /\
  changes (Extended.click t pg) = changes pg /\
  notifications (Extended.click t pg)
  = (notifications pg ++ [data_color el])%list.
Proof.
  intros Ht Hu. unfold is_used_preset in Hu.
  apply andb_prop in Hu. destruct Hu as [Hp Hu].
  unfold Extended.click. rewrite Ht, Hp, Hu. repeat split.
Qed.

(** In that revision the input changes only through a click on a preset
    that is not marked used. *)
Lemma extended_click_sets_only_unused t pg :
  colorInput (widget (Extended.click t pg)) <> colorInput (widget pg) ->
  exists el, target_element pg t = Some el /\
             contains (classList el) "color-preset" = true /\
             contains (classList el) "used" = false /\
             colorInput (widget (Extended.click t pg))
             = Some (data_color el).
Proof.
  unfold Extended.click. intros H.
  destruct (target_element pg t) as [el|]; [|now elim H].
  exists el. split; [reflexivity|].
  destruct (contains (classList el) "color-preset"); [|now elim H].
  destruct (contains (classList el) "used"); [now elim H|].
  destruct t as [i|p]; [|now elim H].
  destruct (colorInput (widget pg)) eqn:E; [|now elim H; rewrite E].
  repeat split.
Qed.

(** C5 (broken by static/admin/js/color_picker.js).  The click handler
    of that revision has no guard for used presets: on the widget
    [used_red], whose input holds ['#000000'], a click on the used preset
    ['#ff0000'] sets the input to ['#ff0000'] and dispatches a change
    event, where the revision with used colours leaves the input alone
    and dispatches nothing. *)
Theorem basic_click_overwrites_used :
  target_element used_red (Inside 0)
  = Some (mkPreset ["color-preset"; "used"] "#ff0000") /\
  is_used_preset (mkPreset ["color-preset"; "used"] "#ff0000") = true /\
  colorInput (widget used_red) = Some "#000000" /\
  colorInput (widget (Basic.click (Inside 0) used_red)) = Some "#ff0000" /\
  changes (Basic.click (Inside 0) used_red) = ["#ff0000"] /\
  colorInput (widget (Extended.click (Inside 0) used_red))
  = Some "#000000" /\
  changes (Extended.click (Inside 0) used_red) = [].
Proof. repeat split. Qed.

End Presets.

(** ** Exported objects *)

Section Exports.

(** C8 (amended).  Once the scripts have run, [PWAnalystInit],
    [PWAnalystTestResults] and [PWAnalystColorPicker] each hold a
    function under the name [initialize]; [PWAnalystTagAdmin] holds no
    property of that name: its functions are [enhanceTagDisplay],
    [initializeTagColorPreview] and [addTagUtilities]. *)
Theorem exported_entry_points :
  map fst window = exported /\
  exposes_initialize "PWAnalystInit" = true /\
  exposes_initialize "PWAnalystTestResults" = true /\
  exposes_initialize "PWAnalystColorPicker" = true /\
  JS.get TagAdmin.PWAnalystTagAdmin "initialize" = None /\
  callable_properties TagAdmin.PWAnalystTagAdmin
  = ["enhanceTagDisplay"; "initializeTagColorPreview"; "addTagUtilities"].
Proof. repeat split. Qed.

(** [PWAnalystTagAdmin.initialize] is not a function. *)
Lemma tag_admin_has_no_initialize :
  ~ (forall name, In name exported -> exposes_initialize name = true).
Proof.
  intros H. specialize (H "PWAnalystTagAdmin").
  assert (E : exposes_initialize "PWAnalystTagAdmin" = false)
    by reflexivity.
  rewrite H in E; [discriminate|]. cbn. tauto.
Qed.

End Exports.

(** ** Page detection *)

Section PageDetection.
Import Pages.

Lemma prefix_app a b s :
  String.prefix (a ++ b) s = true -> String.prefix a s = true.
Proof.
  revert s. induction a as [|c a IH]; intros s H; [now destruct s|].
  destruct s as [|c' s]; [discriminate|].
  cbn [append String.prefix] in *.
  destruct (ascii_dec c c'); [now apply IH | discriminate].
Qed.

Lemma includes_app s a b :
  includes s (a ++ b) = true -> includes s a = true.
Proof.
  induction s as [|c s IH]; cbn [includes]; intros H.
  - destruct (String.prefix (a ++ b) "") eqn:E; [|discriminate].
    now rewrite (prefix_app a b "" E).
  - destruct (String.prefix (a ++ b) (String c s)) eqn:E.
    + now rewrite (prefix_app a b _ E).
    + destruct (String.prefix a (String c s)); [reflexivity | now apply IH].
Qed.

Lemma prefix_spec a s :
  String.prefix a s = true <-> exists post, s = a ++ post.
Proof.
  revert s. induction a as [|c a IH]; intros s.
  - split; [intros _; now exists s | now destruct s].
  - destruct s as [|c' s]; cbn [String.prefix].
    + split; [discriminate | intros [post H]; discriminate].
    + destruct (ascii_dec c c') as [->|Hne].
      * rewrite IH. split; intros [post H]; exists post.
        -- cbn. now rewrite H.
        -- cbn in H. now inversion H.
      * split; [discriminate|]. intros [post H]. cbn in H. congruence.
Qed.

(** [includes] finds the text wherever it starts. *)
Lemma includes_spec s sub :
  includes s sub = true <-> exists pre post, s = pre ++ sub ++ post.
Proof.
  induction s as [|c s IH]; cbn [includes].
  - destruct (String.prefix sub "") eqn:E.
    + apply prefix_spec in E. destruct E as [post E].
      split; [intros _; exists "", post; exact E | reflexivity].
    + split; [discriminate|]. intros (pre & post & H).
      destruct pre; [|discriminate]. cbn in H.
      assert (String.prefix sub "" = true) by (apply prefix_spec; eauto).
      congruence.
  - destruct (String.prefix sub (String c s)) eqn:E.
    + apply prefix_spec in E. destruct E as [post E].
      split; [intros _; exists "", post; exact E | reflexivity].
    + rewrite IH. split.
      * intros (pre & post & H). exists (String c pre), post. cbn. now rewrite H.
      * intros (pre & post & H). destruct pre as [|c' pre].
        -- cbn in H. assert (String.prefix sub (String c s) = true)
             by (apply prefix_spec; eauto). congruence.
        -- cbn in H. inversion H. eauto.
Qed.

(** [detectPage] answers ['unknown'] exactly for the paths without
    [/admin/]; a path with [/admin/core/testresult/] is a test-result
    page whatever else it holds, and a path is a tag page exactly when it
    holds [/admin/core/tag/] and not [/admin/core/testresult/]. *)
Theorem detectPage_classes (path : string) :
  (detectPage path = "unknown" <-> ~ occurs "/admin/" path) /\
  (detectPage path = "test-results"
   <-> occurs "/admin/core/testresult/" path) /\
  (detectPage path = "tags"
   <-> occurs "/admin/core/tag/" path /\
       ~ occurs "/admin/core/testresult/" path).
Proof.
  unfold occurs. rewrite <- !includes_spec. unfold detectPage.
  pose proof (includes_app path "/admin/" "core/testresult/") as H1.
  pose proof (includes_app path "/admin/" "core/tag/") as H2.
  pose proof (includes_app path "/admin/" "core/testexecution/") as H3.
  cbn [append] in H1, H2, H3.
  destruct (includes path "/admin/core/testresult/");
    destruct (includes path "/admin/core/tag/");
    destruct (includes path "/admin/core/testexecution/");
    destruct (includes path "/admin/");
    (split; [|split]); split; intros H;
    try reflexivity; try discriminate; try tauto;
    try (intros E; discriminate E);
    try (now (specialize (H1 eq_refl) || specialize (H2 eq_refl)
              || specialize (H3 eq_refl)));
    try (destruct H as [_ H]; now elim H);
    try (split; [reflexivity | discriminate]);
    try (now elim H).
Qed.

End PageDetection.

(** ** Contrast colour of strings that do not parse *)

Section NotANumber.
#[local] Set Warnings "-inexact-float".

Lemma nan_is_nan : is_nan PrimFloat.nan.
Proof. reflexivity. Qed.

Lemma mul_nan x y : is_nan y -> is_nan (x * y)%float.
Proof.
  unfold is_nan. intros H. rewrite FloatAxioms.mul_spec, H.
  now destruct (Prim2SF x).
Qed.

Lemma add_nan_l x y : is_nan x -> is_nan (x + y)%float.
Proof.
  unfold is_nan. intros H. rewrite FloatAxioms.add_spec, H. reflexivity.
Qed.

Lemma add_nan_r x y : is_nan y -> is_nan (x + y)%float.
Proof.
  unfold is_nan. intros H. rewrite FloatAxioms.add_spec, H.
  now destruct (Prim2SF x).
Qed.

Lemma div_nan x y : is_nan x -> is_nan (x / y)%float.
Proof.
  unfold is_nan. intros H. rewrite FloatAxioms.div_spec, H. reflexivity.
Qed.

Lemma ltb_nan x y : is_nan y -> PrimFloat.ltb x y = false.
Proof.
  unfold is_nan. intros H. rewrite FloatAxioms.ltb_spec, H.
  unfold SFltb. now destruct (Prim2SF x).
Qed.

Lemma luminance_nan r g b :
  is_nan r \/ is_nan g \/ is_nan b -> is_nan (ColorPicker.luminance r g b).
Proof.
  unfold ColorPicker.luminance. intros [H | [H | H]]; apply div_nan.
  - apply add_nan_l, add_nan_l, mul_nan, H.
  - apply add_nan_l, add_nan_r, mul_nan, H.
  - apply add_nan_r, mul_nan, H.
Qed.

(** For a text of ASCII characters: when [parseInt] fails on one of the
    three pairs the luminance is not a number, the comparison with 0.5
    is false, and the text colour is white whatever the other pairs
    hold. *)
Theorem getContrastColor_unparsed (hexColor : string) :
  ascii_text hexColor ->
  (let '(r, g, b) := ColorPicker.channels hexColor in
   r = None \/ g = None \/ b = None) ->
  ColorPicker.getContrastColor hexColor = "#ffffff".
Proof.
  intros _. unfold ColorPicker.getContrastColor.
  destruct (ColorPicker.channels hexColor) as [[r g] b]. intros H.
  rewrite ltb_nan; [reflexivity|]. apply luminance_nan.
  destruct H as [-> | [-> | ->]]; cbn [JS.number_of_parse];
    auto using nan_is_nan.
Qed.

Lemma getContrastColor_unparsed_red :
  ascii_text "red" /\
  (let '(r, g, b) := ColorPicker.channels "red" in
   r = None \/ g = None \/ b = None) /\
  ColorPicker.getContrastColor "red" = "#ffffff".
Proof.
  assert (Ha : ascii_text "red") by (repeat constructor).
  assert (H : let '(r, g, b) := ColorPicker.channels "red" in
              r = None \/ g = None \/ b = None) by (left; reflexivity).
  split; [exact Ha | split; [exact H |]].
  exact (getContrastColor_unparsed "red" Ha H).
Defined.

(** A no-break space in front of a digit is trimmed by [parseInt]: the
    pair reads 15 and the colour counts as light. *)
Lemma getContrastColor_no_break_space :
  ColorPicker.getContrastColor
    (String "#" (String (ascii_of_N 160) "fffff")) = "#000000".
Proof. vm_compute. reflexivity. Qed.

(** A colour of three hexadecimal digits is valid for [isValidColor],
    yet [getContrastColor] reads no blue pair in it and answers white,
    also for light colours. *)
Theorem getContrastColor_three_digits (c : string) :
  hash_hex 3 c ->
  (forall css, ColorPicker.isValidColor css c = true) /\
  ColorPicker.getContrastColor c = "#ffffff".
Proof.
  intros H. split.
  - intros css. apply picker_isValidColor_hex_or_css. left. now left.
  - unfold ColorPicker.getContrastColor.
    destruct H as (ds & -> & Hl & Ha).
    destruct ds as [|d1 [|d2 [|d3 [|]]]]; try discriminate.
    assert (E : snd (ColorPicker.channels
                       (String "#" (String d1 (String d2 (String d3 "")))))
                = None) by reflexivity.
    destruct (ColorPicker.channels _) as [[r g] b]. cbn [snd] in E. subst b.
    rewrite ltb_nan; [reflexivity|]. apply luminance_nan.
    right. right. exact nan_is_nan.
Qed.

Lemma getContrastColor_three_digits_white :
  hash_hex 3 "#fff" /\ ColorPicker.getContrastColor "#fff" = "#ffffff".
Proof.
  assert (H : hash_hex 3 "#fff").
  { exists "fff". split; [reflexivity | split; [reflexivity |]].
    cbn; intuition auto. }
  split; [exact H | exact (proj2 (getContrastColor_three_digits "#fff" H))].
Defined.

End NotANumber.

(** ** Conversion of other strings *)

Section Conversion.

Ltac next_digit s :=
  let c := fresh "c" in
  let E := fresh "E" in
  destruct s as [|c s]; cbn [JS.rmatch]; [discriminate|];
  destruct (JS.in_class true rgba_class c) eqn:E; [|discriminate].

Lemma rgba_digits_match s caps res :
  JS.rmatch true rgba_digits s caps at_end = Some res ->
  String.length s = 6%nat /\ all_hex s.
Proof.
  unfold rgba_digits. cbn [JS.rmatch].
  next_digit s. next_digit s. next_digit s.
  next_digit s. next_digit s. next_digit s.
  destruct s; [|discriminate]. intros _.
  rewrite rgba_class_chars in *.
  split; [reflexivity|]. cbn [all_hex].
  repeat split; now apply is_hex_char_In.
Qed.

Lemma rgba_digits_no_hash s caps :
  JS.rmatch true rgba_digits (String "#" s) caps at_end = None.
Proof. reflexivity. Qed.

Lemma exec_rgbaRegex_only_six s res :
  JS.exec_anchored true TagAdmin.rgbaRegex s = Some res -> hex6_color s.
Proof.
  unfold JS.exec_anchored, TagAdmin.rgbaRegex.
  change [("a", "f"); ("0", "9")]%char with rgba_class.
  change (JS.rmatch true _ s [] _)
    with (match JS.rmatch true (JS.Chr "#") s []
                  (fun s' caps' => JS.rmatch true rgba_digits s' caps' at_end)
          with
          | Some r => Some r
          | None => JS.rmatch true rgba_digits s [] at_end
          end).
  destruct s as [|c s].
  - cbn. discriminate.
  - change (JS.rmatch true (JS.Chr "#") (String c s) [] ?k)
      with (if JS.in_class true [("#", "#")%char] c then k s [] else None).
    rewrite hash_class_chars. destruct (Ascii.eqb c "#") eqn:Ec.
    + apply Ascii.eqb_eq in Ec. subst c.
      rewrite rgba_digits_no_hash.
      destruct (JS.rmatch true rgba_digits s [] at_end) eqn:E; [|discriminate].
      intros _. apply rgba_digits_match in E. exists s. tauto.
    + intros H. apply rgba_digits_match in H. exists (String c s). tauto.
Qed.

(** [hexToRgba] gives back unchanged every string that is not six
    hexadecimal digits with an optional [#] in front: three-digit
    colours, colour names, [rgb(...)] texts. *)
Theorem hexToRgba_other_strings (s alpha : string) :
  ~ hex6_color s -> TagAdmin.hexToRgba s alpha = s.
Proof.
  intros Hn. unfold TagAdmin.hexToRgba.
  destruct (JS.exec_anchored true TagAdmin.rgbaRegex s) as [res|] eqn:E;
    [|reflexivity].
  elim Hn. eapply exec_rgbaRegex_only_six; eauto.
Qed.

Lemma hex6_color_first s :
  hex6_color s ->
  match s with
  | String c _ => c = "#"%char \/ In c hex_digits
  | EmptyString => False
  end.
Proof.
  intros (ds & Hs & Hl & Ha). destruct Hs as [-> | ->]; [|now left].
  destruct ds as [|c ds]; [discriminate|]. right. now destruct Ha.
Qed.

Lemma hexToRgba_other_strings_rgb :
  ~ hex6_color "rgb(239, 68, 68)" /\
  TagAdmin.hexToRgba "rgb(239, 68, 68)" "0.1" = "rgb(239, 68, 68)".
Proof.
  assert (H : ~ hex6_color "rgb(239, 68, 68)").
  { intros H. apply hex6_color_first in H. destruct H as [H | H].
    - discriminate.
    - cbn in H. repeat (destruct H as [H | H]; [discriminate|]). exact H. }
  split; [exact H | exact (hexToRgba_other_strings _ "0.1" H)].
Defined.

End Conversion.

(** ** Class lists *)

Section ClassLists.
Import DOM.

Lemma contains_app cl cl' c :
  contains (cl ++ cl')%list c = contains cl c || contains cl' c.
Proof. unfold contains. apply existsb_app. Qed.

Lemma contains_add cl c d :
  contains (add cl c) d = contains cl d || String.eqb d c.
Proof.
  unfold add. destruct (contains cl c) eqn:E.
  - destruct (String.eqb d c) eqn:Ed; [|now rewrite orb_false_r].
    apply String.eqb_eq in Ed. subst d. now rewrite E.
  - rewrite contains_app. cbn [contains existsb]. now rewrite orb_false_r.
Qed.

Lemma contains_remove cl c d :
  contains (remove cl c) d = contains cl d && negb (String.eqb d c).
Proof.
  unfold remove, contains. induction cl as [|x cl IH]; [reflexivity|].
  cbn [filter existsb]. destruct (String.eqb x c) eqn:Ex; cbn [negb existsb].
  - rewrite IH. apply String.eqb_eq in Ex. subst x.
    destruct (String.eqb d c) eqn:Ed; cbn [negb].
    + now rewrite !andb_false_r.
    + now rewrite !andb_true_r.
  - rewrite IH. destruct (String.eqb d x) eqn:Edx; [|reflexivity].
    apply String.eqb_eq in Edx. subst x. cbn [orb].
    rewrite Ex. reflexivity.
Qed.

Lemma contains_remove_self cl c : contains (remove cl c) c = false.
Proof.
  unfold remove, contains. induction cl as [|x cl IH]; [reflexivity|].
  cbn [filter]. destruct (String.eqb x c) eqn:E; cbn [negb]; [exact IH|].
  cbn [existsb]. rewrite IH, String.eqb_sym, E. reflexivity.
Qed.

End ClassLists.

(** ** Selection marks of the presets *)

Section PresetMarks.
Import DOM Widget.

Lemma sync_nth ps selected i p q :
  nth_error ps i = Some p ->
  nth_error (syncPresetSelection ps selected) i = Some q ->
  data_color q = data_color p /\
  (forall c, c <> "selected" ->
             contains (classList q) c = contains (classList p) c) /\
  (contains (classList p) "color-preset" = true ->
   (contains (classList q) "selected" = true <-> data_color p = selected)).
Proof.
  unfold syncPresetSelection, for_presets.
  intros Hp Hq. rewrite nth_error_map, Hp in Hq. cbn in Hq.
  inversion Hq as [E]; clear Hq. symmetry in E.
  destruct (contains (classList p) "color-preset") eqn:Hc.
  - destruct (String.eqb (data_color p) selected) eqn:Es;
      subst q; unfold map_classes; cbn [classList data_color];
      (split; [reflexivity | split]).
    + intros c Hne. rewrite contains_add.
      apply String.eqb_neq in Hne. now rewrite Hne, orb_false_r.
    + intros _. rewrite contains_add. apply String.eqb_eq in Es.
      split; [intros _; exact Es | intros _; apply orb_true_r].
    + intros c Hne. rewrite contains_remove.
      apply String.eqb_neq in Hne. now rewrite Hne, andb_true_r.
    + intros _. rewrite contains_remove. apply String.eqb_neq in Es.
      cbn. rewrite andb_false_r. split; [discriminate | contradiction].
  - subst q. split; [reflexivity | split; [reflexivity | discriminate]].
Qed.

Lemma sync_length ps selected :
  List.length (syncPresetSelection ps selected) = List.length ps.
Proof. unfold syncPresetSelection, for_presets. apply length_map. Qed.

(** After [syncPresetSelection] there are as many elements as before; a
    preset button is marked selected exactly when its colour is the
    selected one; its other classes and its colour are as before. *)
Theorem syncPresetSelection_marks (ps : list preset) (selected : string) :
  List.length (syncPresetSelection ps selected) = List.length ps /\
  forall i p q,
    nth_error ps i = Some p ->
    nth_error (syncPresetSelection ps selected) i = Some q ->
    data_color q = data_color p /\
    (forall c, c <> "selected" ->
               contains (classList q) c = contains (classList p) c) /\
    (contains (classList p) "color-preset" = true ->
     (contains (classList q) "selected" = true <->
      data_color p = selected)).
Proof.
  split; [apply sync_length | intros i p q; apply sync_nth].
Qed.

Lemma syncPresetSelection_marks_two :
  let ps := [ mkPreset ["color-preset"; "selected"] "#ff0000";
              mkPreset ["color-preset"] "#00ff00" ] in
  nth_error ps 1 = Some (mkPreset ["color-preset"] "#00ff00") /\
  nth_error (syncPresetSelection ps "#00ff00") 1
  = Some (mkPreset ["color-preset"; "selected"] "#00ff00") /\
  (contains ["color-preset"; "selected"] "selected" = true
   <-> "#00ff00" = "#00ff00").
Proof.
  intros ps.
  assert (Hp : nth_error ps 1 = Some (mkPreset ["color-preset"] "#00ff00"))
    by reflexivity.
  assert (Hq : nth_error (syncPresetSelection ps "#00ff00") 1
               = Some (mkPreset ["color-preset"; "selected"] "#00ff00"))
    by reflexivity.
  split; [exact Hp | split; [exact Hq |]].
  exact (proj2 (proj2 (proj2 (syncPresetSelection_marks ps "#00ff00")
                         1%nat _ _ Hp Hq)) eq_refl).
Defined.

Lemma select_marks b i color pg : marks_follow color (select b i color pg).
Proof.
  unfold select, marks_follow. cbn [widget colorInput presets].
  split; [reflexivity|]. intros j q Hq Hc.
  set (ps2 := update_nth i _ _) in *.
  destruct (nth_error ps2 j) as [p2|] eqn:Hp2.
  - destruct (sync_nth ps2 color j p2 q Hp2 Hq) as (Hd & Hcl & Hsel).
    rewrite Hd. apply Hsel. rewrite <- Hcl; [exact Hc | discriminate].
  - apply nth_error_None in Hp2.
    assert (nth_error (syncPresetSelection ps2 color) j <> None)
      by (rewrite Hq; discriminate).
    apply nth_error_Some in H. rewrite sync_length in H. lia.
Qed.

(** A click on a preset button of a widget whose input exists sets the
    input to the colour of the button and leaves the selection marks in
    step with it: in the revision with used colours when the button is
    not marked used, in the other revision always. *)
Theorem click_marks_follow_input (i : nat) (pg : page) (el : preset) :
  nth_error (presets (widget pg)) i = Some el ->
  contains (classList el) "color-preset" = true ->
  colorInput (widget pg) <> None ->
  marks_follow (data_color el) (Basic.click (Inside i) pg) /\
  changes (Basic.click (Inside i) pg)
  = (changes pg ++ [data_color el])%list /\
  (contains (classList el) "used" = false ->
   marks_follow (data_color el) (Extended.click (Inside i) pg) /\
   changes (Extended.click (Inside i) pg)
   = (changes pg ++ [data_color el])%list).
Proof.
  intros Hel Hc Hin. unfold Basic.click, Extended.click.
  cbn [target_element]. rewrite Hel, Hc.
  destruct (colorInput (widget pg)) as [v|] eqn:Ev; [|now elim Hin].
  split; [apply select_marks | split; [reflexivity|]].
  intros ->. split; [apply select_marks | reflexivity].
Qed.

Lemma click_marks_follow_input_green :
  nth_error (presets (widget used_red)) 1
  = Some (mkPreset ["color-preset"] "#00ff00") /\
  colorInput (widget (Extended.click (Inside 1) used_red))
  = Some "#00ff00".
Proof.
  assert (Hel : nth_error (presets (widget used_red)) 1
                = Some (mkPreset ["color-preset"] "#00ff00")) by reflexivity.
  split; [exact Hel|].
  assert (Hin : colorInput (widget used_red) <> None) by discriminate.
  exact (proj1 (proj1 (proj2 (proj2
           (click_marks_follow_input 1 used_red _ Hel eq_refl Hin))
           eq_refl))).
Defined.

Lemma extended_click_used_red :
  target_element used_red (Inside 0)
  = Some (mkPreset ["color-preset"; "used"] "#ff0000") /\
  is_used_preset (mkPreset ["color-preset"; "used"] "#ff0000") = true /\
  widget (Extended.click (Inside 0) used_red) = widget used_red /\
  notifications (Extended.click (Inside 0) used_red) = ["#ff0000"].
Proof.
  repeat (split; [reflexivity|]).
  exact (proj2 (proj2 (extended_click_used (Inside 0) used_red _
                         eq_refl eq_refl))).
Defined.

Lemma extended_click_sets_only_unused_green :
  colorInput (widget (Extended.click (Inside 1) used_red))
  <> colorInput (widget used_red) /\
  exists el,
    target_element used_red (Inside 1) = Some el /\
    contains (classList el) "color-preset" = true /\
    contains (classList el) "used" = false /\
    colorInput (widget (Extended.click (Inside 1) used_red))
    = Some (data_color el).
Proof.
  assert (H : colorInput (widget (Extended.click (Inside 1) used_red))
              <> colorInput (widget used_red)) by discriminate.
  split; [exact H |].
  exact (extended_click_sets_only_unused (Inside 1) used_red H).
Defined.

End PresetMarks.

(** ** The palette of an input *)

Section PaletteProps.
Import Palette.
Variable css : string -> bool.
Variable lower : string -> string.

(** Hovering an option and leaving it gives the input its value back
    and clears the saved one; a second reset changes nothing. *)
Theorem preview_then_reset (el : input) (c : string) :
  let el' := resetColorPreview css (previewColor css el c) in
  value el' = value el /\
  originalValue el' = None /\
  resetColorPreview css el' = el'.
Proof.
  unfold previewColor, resetColorPreview. cbn [originalValue value].
  destruct (ColorPicker.isValidColor css (value el)); repeat split.
Qed.

Lemma updateSelectedColor_input st :
  value (inputElement (updateSelectedColor css lower st))
  = value (inputElement st) /\
  originalValue (inputElement (updateSelectedColor css lower st))
  = originalValue (inputElement st) /\
  changes (updateSelectedColor css lower st) = changes st /\
  timers (updateSelectedColor css lower st) = timers st /\
  List.length (colorOptions (updateSelectedColor css lower st))
  = List.length (colorOptions st).
Proof.
  unfold updateSelectedColor. cbn [inputElement changes timers colorOptions].
  destruct (ColorPicker.isValidColor css _); cbn [value originalValue];
    repeat split; apply length_map.
Qed.

Lemma updateSelectedColor_colors st :
  map data_color (colorOptions (updateSelectedColor css lower st))
  = map data_color (colorOptions st).
Proof.
  unfold updateSelectedColor. cbn [colorOptions]. rewrite map_map.
  apply map_ext. reflexivity.
Qed.

Lemma update_nth_colors i b os :
  map data_color (update_nth i (set_selected b) os) = map data_color os.
Proof.
  revert i. induction os as [|o os IH]; intros [|i]; cbn [update_nth map];
    try reflexivity.
  now rewrite IH.
Qed.

Lemma click_colors i st :
  map data_color (colorOptions (click css lower i st))
  = map data_color (colorOptions st).
Proof.
  unfold click. destruct (nth_error (colorOptions st) i); [|reflexivity].
  cbn [colorOptions]. rewrite update_nth_colors, updateSelectedColor_colors.
  cbn [colorOptions]. now rewrite updateSelectedColor_colors.
Qed.

Lemma update_nth_length i f os :
  List.length (update_nth i f os) = List.length os.
Proof.
  revert i. induction os as [|o os IH]; intros [|i]; cbn; auto.
Qed.

Lemma update_nth_same i f os o :
  nth_error os i = Some o -> nth_error (update_nth i f os) i = Some (f o).
Proof.
  revert i. induction os as [|x os IH]; intros [|i]; cbn; try discriminate.
  - now intros [= ->].
  - apply IH.
Qed.

Lemma click_input i st o :
  nth_error (colorOptions st) i = Some o ->
  value (inputElement (click css lower i st)) = data_color o /\
  originalValue (inputElement (click css lower i st))
  = originalValue (inputElement st) /\
  changes (click css lower i st) = (changes st ++ [data_color o])%list /\
  timers (click css lower i st) = (timers st ++ [i])%list /\
  List.length (colorOptions (click css lower i st))
  = List.length (colorOptions st).
Proof.
  intros Ho. unfold click. rewrite Ho.
  cbn [inputElement changes timers colorOptions].
  set (st1 := updateSelectedColor css lower (set_value (data_color o) st)).
  destruct (updateSelectedColor_input (set_value (data_color o) st))
    as (V1 & O1 & C1 & T1 & L1). fold st1 in V1, O1, C1, T1, L1.
  set (st2 := mkState (inputElement st1) (colorOptions st1)
                      (changes st1 ++ [data_color o])%list (timers st1)).
  destruct (updateSelectedColor_input st2) as (V2 & O2 & C2 & T2 & L2).
  rewrite V2, O2, C2, T2, update_nth_length, L2. subst st2.
  cbn [inputElement changes timers colorOptions].
  rewrite V1, O1, C1, T1, L1. repeat split.
Qed.

(** Choosing a colour with the pointer: the pointer enters the option,
    clicks it and leaves it.  A change event for the colour is
    dispatched, and the input ends with the value it had before. *)
Theorem hover_click_leave (st : state) (i : nat) (o : swatch) :
  nth_error (colorOptions st) i = Some o ->
  let st' :=
    fold_left (step css lower) [MouseEnter i; Click i; MouseLeave i] st in
  value (inputElement st') = value (inputElement st) /\
  originalValue (inputElement st') = None /\
  changes st' = (changes st ++ [data_color o])%list.
Proof.
  intros Ho. cbn [fold_left step]. rewrite Ho.
  set (st1 := mkState (previewColor css (inputElement st) (data_color o))
                      (colorOptions st) (changes st) (timers st)).
  assert (Ho1 : nth_error (colorOptions st1) i = Some o) by exact Ho.
  destruct (click_input i st1 o Ho1) as (V & O & C & T & L).
  assert (Hex : nth_error (colorOptions (click css lower i st1)) i <> None).
  { apply nth_error_Some. rewrite L. apply nth_error_Some.
    rewrite Ho1. discriminate. }
  destruct (nth_error (colorOptions (click css lower i st1)) i);
    [|now elim Hex].
  cbn [inputElement changes]. unfold resetColorPreview. rewrite O, C.
  subst st1. cbn [inputElement changes previewColor originalValue].
  destruct (ColorPicker.isValidColor css (value (inputElement st)));
    repeat split.
Qed.

(** Once the animation of a click has ended, the clicked option is not
    marked selected, though the input holds its colour. *)
Theorem click_mark_dropped (st : state) (i : nat) (o : swatch) :
  nth_error (colorOptions st) i = Some o -> timers st = [] ->
  let st' := fold_left (step css lower) [Click i; TimerFires] st in
  value (inputElement st') = data_color o /\
  exists o', nth_error (colorOptions st') i = Some o' /\
             data_color o' = data_color o /\
             DOM.contains (classList o') "selected" = false.
Proof.
  intros Ho Ht. cbn [fold_left step].
  destruct (click_input i st o Ho) as (V & O & C & T & L).
  rewrite T, Ht. cbn [app inputElement colorOptions].
  split; [exact V|].
  assert (Hex : nth_error (colorOptions (click css lower i st)) i <> None).
  { apply nth_error_Some. rewrite L. apply nth_error_Some.
    rewrite Ho. discriminate. }
  destruct (nth_error (colorOptions (click css lower i st)) i) as [o1|] eqn:E1;
    [|now elim Hex].
  exists (set_selected false o1). split; [now apply update_nth_same|].
  split.
  - cbn [set_selected data_color].
    pose proof (click_colors i st) as Hc.
    apply (f_equal (fun l => nth_error l i)) in Hc.
    rewrite !nth_error_map, E1, Ho in Hc. cbn in Hc. now inversion Hc.
  - cbn [set_selected classList]. rewrite contains_remove_self. reflexivity.
Qed.

End PaletteProps.

Lemma hover_click_leave_red :
  nth_error (Palette.colorOptions two_options) 0
  = Some (Palette.mkSwatch ["color-option"] "#ff0000") /\
  Palette.value
    (Palette.inputElement
       (fold_left (Palette.step Browser.accepts_color same_case)
                  [Palette.MouseEnter 0; Palette.Click 0;
                   Palette.MouseLeave 0] two_options))
  = "#123456".
Proof.
  assert (H : nth_error (Palette.colorOptions two_options) 0
              = Some (Palette.mkSwatch ["color-option"] "#ff0000"))
    by reflexivity.
  split; [exact H |].
  exact (proj1 (hover_click_leave Browser.accepts_color same_case
                  two_options 0 _ H)).
Defined.

Lemma click_mark_dropped_red :
  nth_error (Palette.colorOptions two_options) 0
  = Some (Palette.mkSwatch ["color-option"] "#ff0000") /\
  Palette.timers two_options = [] /\
  Palette.value
    (Palette.inputElement
       (fold_left (Palette.step Browser.accepts_color same_case)
                  [Palette.Click 0; Palette.TimerFires] two_options))
  = "#ff0000".
Proof.
  assert (H : nth_error (Palette.colorOptions two_options) 0
              = Some (Palette.mkSwatch ["color-option"] "#ff0000"))
    by reflexivity.
  split; [exact H | split; [reflexivity |]].
  exact (proj1 (click_mark_dropped Browser.accepts_color same_case
                  two_options 0 _ H eq_refl)).
Defined.

(** ** The history listener *)

Section HistoryListener.
Import ColorPicker HistoryEvents.
Variable css : string -> bool.

Lemma run_replay es : run css es = replay (accepted_colors css es).
Proof.
  unfold run, replay, accepted_colors.
  generalize (@None (list string)).
  induction es as [|e es IH]; intros st; [reflexivity|].
  cbn [fold_left filter]. rewrite IH. unfold on_change.
  destruct (DOM.contains (target_classes e) "advanced-color-picker");
    [|reflexivity].
  cbn [andb]. destruct (isValidColor css (target_value e)); reflexivity.
Qed.

(** Whatever change events arrive, the stored history holds at most ten
    colours, none twice, each of them the valid value of a change event
    on an advanced colour picker. *)
Theorem history_holds_valid_colors (es : list change) :
  let history := getColorHistory (run css es) in
  (List.length history <= 10)%nat /\
  NoDup history /\
  forall c, In c history ->
            isValidColor css c = true /\
            exists e, In e es /\ target_value e = c /\
                      DOM.contains (target_classes e)
                                   "advanced-color-picker" = true.
Proof.
  intros history. subst history. rewrite run_replay, replay_recent_first.
  split; [apply firstn_le_length|].
  split; [apply NoDup_firstn_prefix, NoDup_recent_first|].
  intros c Hc. apply In_firstn in Hc. unfold recent_first in Hc.
  apply in_rev in Hc. apply nodup_In in Hc.
  unfold accepted_colors in Hc. apply in_map_iff in Hc.
  destruct Hc as (e & <- & He). apply filter_In in He.
  destruct He as [He Hb]. apply andb_prop in Hb. destruct Hb as [Hcl Hv].
  split; [exact Hv | exists e; auto].
Qed.

End HistoryListener.

(** ** Arrow keys *)

Section TableKeys.
Import TableNav.

Lemma position_eq_dec (p q : position) : {p = q} + {p <> q}.
Proof. repeat decide equality. Qed.

Lemma cell_at_focus t k p q :
  fst (keydown t k p) = q -> q <> p ->
  targetCell t k p = Some q /\
  exists c c', cell_at t p = Some c /\ cell_at t q = Some c' /\
               focusable c' = true.
Proof.
  unfold keydown. destruct (cell_at t p) as [c|] eqn:Ep;
    [|cbn; intros <- H; now elim H].
  destruct (targetCell t k p) as [r|] eqn:Et;
    [|cbn; intros <- H; now elim H].
  destruct (cell_at t r) as [c'|] eqn:Er; [|cbn; intros <- H; now elim H].
  destruct (focusable c') eqn:Ef; cbn; intros <- H; [|now elim H].
  split; [reflexivity | eauto].
Qed.

(** One listener run that moves the focus is undone by one run for
    the opposite key, as long as the cell left behind can take the
    focus again. *)
Lemma keydown_undone (t : rows) (k : key) (p q : position) (c : cell) :
  cell_at t p = Some c -> focusable c = true ->
  fst (keydown t k p) = q -> q <> p ->
  fst (keydown t (opposite k) q) = p.
Proof.
  intros Hp Hf Hq Hne.
  destruct (cell_at_focus t k p q Hq Hne) as (Ht & c0 & c' & _ & Hcq & Hf').
  assert (Hback : targetCell t (opposite k) q = Some p).
  { destruct p as [i j]. destruct k; cbn [targetCell opposite] in *.
    - destruct i as [|i]; [discriminate|].
      destruct (cell_at t (i, j)); [|discriminate].
      inversion Ht; subst q. cbn [targetCell]. now rewrite Hp.
    - destruct (cell_at t (S i, j)); [|discriminate].
      inversion Ht; subst q. cbn [targetCell]. now rewrite Hp.
    - destruct j as [|j]; [discriminate|].
      inversion Ht; subst q. cbn [targetCell]. now rewrite Hp.
    - destruct (cell_at t (i, S j)); [|discriminate].
      inversion Ht; subst q. reflexivity.
    - discriminate. }
  unfold keydown. rewrite Hcq, Hback, Hp, Hf. reflexivity.
Qed.

(** A listener run leaves the focus on a cell that can hold it. *)
Lemma keydown_on_cell t k p c :
  cell_at t p = Some c -> focusable c = true ->
  exists c', cell_at t (fst (keydown t k p)) = Some c' /\
             focusable c' = true.
Proof.
  intros Hp Hf.
  destruct (position_eq_dec (fst (keydown t k p)) p) as [E | Hne].
  - rewrite E. eauto.
  - destruct (cell_at_focus t k p _ eq_refl Hne)
      as (_ & _ & c' & _ & Hc' & Hf'). eauto.
Qed.

Lemma keypress_on_cell t k n p c :
  cell_at t p = Some c -> focusable c = true ->
  exists c', cell_at t (keypress n t k p) = Some c' /\
             focusable c' = true.
Proof.
  intros Hp Hf. induction n as [|n (c' & Hc' & Hf')]; [eauto|].
  change (keypress (S n) t k p)
    with (fst (keydown t k (keypress n t k p))).
  now apply (keydown_on_cell t k _ c').
Qed.

Lemma keypress_succ_r n t k p :
  keypress (S n) t k p = keypress n t k (fst (keydown t k p)).
Proof. unfold keypress. apply Nat.iter_succ_r. Qed.

(** One key press runs [n] listeners.  Starting on a cell that can hold
    the focus, the focus ends on a cell of the table section; and when
    each of the [n] runs has moved it, the opposite arrow key, with its
    [n] runs, brings it back. *)
Theorem arrow_keys_round_trip (t : rows) (k : key) (n : nat)
        (p : position) (c : cell) :
  cell_at t p = Some c -> focusable c = true ->
  cell_at t (keypress n t k p) <> None /\
  ((forall i, (i < n)%nat -> keypress (S i) t k p <> keypress i t k p) ->
   keypress n t (opposite k) (keypress n t k p) = p).
Proof.
  intros Hp Hf. split.
  - destruct (keypress_on_cell t k n p c Hp Hf) as (c' & E & _).
    rewrite E. discriminate.
  - induction n as [|n IH]; intros Hmoves; [reflexivity|].
    destruct (keypress_on_cell t k n p c Hp Hf) as (c' & Hc' & Hf').
    rewrite keypress_succ_r.
    change (keypress (S n) t k p)
      with (fst (keydown t k (keypress n t k p))).
    rewrite (keydown_undone t k (keypress n t k p) _ c' Hc' Hf' eq_refl).
    + apply IH. intros i Hi. apply Hmoves. lia.
    + apply (Hmoves n). lia.
Qed.

Lemma arrow_keys_round_trip_grid :
  let t := repeat [mkCell true] 5 in
  cell_at t (0, 0)%nat = Some (mkCell true) /\
  keypress 3 t ArrowDown (0, 0)%nat = (3, 0)%nat /\
  keypress 3 t ArrowUp (3, 0)%nat = (0, 0)%nat.
Proof.
  intros t.
  assert (Hp : cell_at t (0, 0)%nat = Some (mkCell true)) by reflexivity.
  assert (Hmoves : forall i, (i < 3)%nat ->
                     keypress (S i) t ArrowDown (0, 0)%nat
                     <> keypress i t ArrowDown (0, 0)%nat).
  { intros [|[|[|i]]] Hi; [discriminate | discriminate | discriminate | lia]. }
  split; [exact Hp | split; [reflexivity |]].
  exact (proj2 (arrow_keys_round_trip t ArrowDown 3 _ _ Hp eq_refl) Hmoves).
Defined.

(** A run that finds no cell to move to breaks the round trip: with
    three listeners in a column of five cells, down from the fourth
    cell moves one cell, and up then moves three. *)
Lemma blocked_run_not_undone :
  let t := repeat [mkCell true] 5 in
  keypress 3 t ArrowDown (3, 0)%nat = (4, 0)%nat /\
  keypress 3 t ArrowUp (4, 0)%nat = (1, 0)%nat.
Proof. split; reflexivity. Qed.

End TableKeys.

(** ** The test panel *)

Section PanelProps.
Import DOM TestPanel.

Lemma later_first n : Nat.ltb (n + 10) (n + 300) = true.
Proof. apply Nat.ltb_lt. lia. Qed.

(** Opening the panel, letting it slide in, closing it and letting it
    slide out leaves it hidden and slid out (with [translate-x-full],
    without [translate-x-0]), with no timer pending. *)
Theorem open_close_round_trip (st : state) (p : panel) (o : list string) :
  test_detail_panel (dom st) = Some p ->
  panel_overlay (dom st) = Some o ->
  timers st = [] ->
  let st' := run st [Open; TimerFires; Close; TimerFires] in
  panel_hidden (dom st') /\ panel_slid_out (dom st') /\
  ~ panel_slid_in (dom st') /\ timers st' = [].
Proof.
  intros Hp Ho Ht. unfold run. cbn [fold_left step].
  assert (E : openTestPanel st
              = mkState (mkPage (Some (mkPanel "block" (panel_classes p)))
                                (Some (remove o "hidden")) "hidden")
                        [mkTimer (now st + 10) SlideIn] (now st))
    by (unfold openTestPanel; now rewrite Hp, Ho, Ht).
  rewrite E.
  cbn [app timers earliest dom action run_callback test_detail_panel
       panel_overlay display panel_classes body_overflow now
       closeTestPanel].
  split; [|split; [|split; [|reflexivity]]].
  - do 2 eexists. repeat split. rewrite contains_add. apply orb_true_r.
  - eexists. split; [reflexivity|]. cbn [panel_classes]. split.
    + rewrite contains_add. apply orb_true_r.
    + rewrite contains_add, contains_remove_self. reflexivity.
  - intros (p' & E' & H0 & Hfull). inversion E'; subst p'.
    cbn [panel_classes] in Hfull. rewrite contains_add in Hfull.
    rewrite orb_true_r in Hfull. discriminate.
Qed.

(** Closing the panel and opening it again at once: the opening timer
    (10 ms) fires before the closing one (300 ms), and once both have
    fired the panel is slid in, and hidden. *)
Theorem close_then_reopen (st : state) (p : panel) (o : list string) :
  test_detail_panel (dom st) = Some p ->
  panel_overlay (dom st) = Some o ->
  timers st = [] ->
  let st' := run st [Close; Open; TimerFires; TimerFires] in
  panel_slid_in (dom st') /\ panel_hidden (dom st') /\ timers st' = [].
Proof.
  intros Hp Ho Ht. unfold run. cbn [fold_left step].
  assert (E : closeTestPanel st
              = mkState
                  (mkPage
                     (Some (mkPanel (display p)
                              (add (remove (panel_classes p) "translate-x-0")
                                   "translate-x-full")))
                     (Some o) (body_overflow (dom st)))
                  [mkTimer (now st + 300) Hide] (now st))
    by (unfold closeTestPanel; now rewrite Hp, Ho, Ht).
  rewrite E.
  cbn [app timers earliest dom action run_callback test_detail_panel
       panel_overlay display panel_classes body_overflow now
       openTestPanel due].
  rewrite later_first.
  cbn [app timers earliest dom action run_callback test_detail_panel
       panel_overlay display panel_classes body_overflow now due].
  split; [|split; [|reflexivity]].
  - eexists. split; [reflexivity|]. cbn [panel_classes].
    rewrite !contains_add, !contains_remove, !contains_add.
    cbn. split; [apply orb_true_r|]. now rewrite andb_false_r.
  - do 2 eexists. repeat split. rewrite contains_add. apply orb_true_r.
Qed.

End PanelProps.

Lemma open_close_round_trip_closed :
  TestPanel.test_detail_panel (TestPanel.dom closed_panel)
  = Some (TestPanel.mkPanel "none" ["fixed"; "translate-x-full"]) /\
  TestPanel.panel_overlay (TestPanel.dom closed_panel)
  = Some ["overlay"; "hidden"] /\
  TestPanel.timers closed_panel = [] /\
  panel_slid_out
    (TestPanel.dom
       (TestPanel.run closed_panel
          [TestPanel.Open; TestPanel.TimerFires; TestPanel.Close;
           TestPanel.TimerFires])).
Proof.
  repeat (split; [reflexivity|]).
  exact (proj1 (proj2 (open_close_round_trip closed_panel _ _
                         eq_refl eq_refl eq_refl))).
Defined.

Lemma close_then_reopen_closed :
  TestPanel.test_detail_panel (TestPanel.dom closed_panel)
  = Some (TestPanel.mkPanel "none" ["fixed"; "translate-x-full"]) /\
  TestPanel.panel_overlay (TestPanel.dom closed_panel)
  = Some ["overlay"; "hidden"] /\
  TestPanel.timers closed_panel = [] /\
  panel_hidden
    (TestPanel.dom
       (TestPanel.run closed_panel
          [TestPanel.Close; TestPanel.Open; TestPanel.TimerFires;
           TestPanel.TimerFires])).
Proof.
  repeat (split; [reflexivity|]).
  exact (proj1 (proj2 (close_then_reopen closed_panel _ _
                         eq_refl eq_refl eq_refl))).
Defined.

(** ** Repeated initialisation *)

Section RepeatedInit.
Import DOM.

Lemma tooltip_row_length n body :
  tooltip_row n body -> List.length (with_class "global-tooltip" body) = n.
Proof.
  intros [Hid Hcl]. unfold with_class.
  assert (E : filter (fun nd => String.eqb (className nd) "global-tooltip")
                     body = body).
  { clear Hid. induction Hcl as [|nd body H _ IH]; [reflexivity|].
    cbn [filter]. rewrite H, String.eqb_refl. now rewrite IH. }
  rewrite E. rewrite <- (length_map node_id), Hid. apply length_seq.
Qed.

Lemma tooltip_row_set_opacity n id o body :
  tooltip_row n body -> tooltip_row n (set_opacity_of id o body).
Proof.
  intros [Hid Hcl]. unfold set_opacity_of. split.
  - rewrite map_map. rewrite <- Hid. apply map_ext.
    intros nd. now destruct (Nat.eqb (node_id nd) id).
  - apply Forall_map. eapply Forall_impl; [|exact Hcl].
    intros nd H. now destruct (Nat.eqb (node_id nd) id).
Qed.

(** The state after [S n] calls of [showTooltip] from the start. *)
Lemma shows_from_initial l title n :
  let st := Pages.mouseenter (S n) l title Init.initial in
  tooltip_row (S n) (Init.body st) /\
  Init.currentTooltip st = Some n /\
  Init.timers st = repeat (Init.mkTimer 200 Init.RemoveCurrent) n /\
  Init.next_id st = S n /\
  Init.now st = 0%nat.
Proof.
  induction n as [|n IH].
  - cbn. repeat split. repeat constructor.
  - destruct IH as ([Hid Hcl] & Hcur & Htm & Hnext & Hnow).
    change (Pages.mouseenter (S (S n)) l title Init.initial)
      with (Init.showTooltip l title
              (Pages.mouseenter (S n) l title Init.initial)).
    set (st := Pages.mouseenter (S n) l title Init.initial) in *.
    unfold Init.showTooltip, Init.hideTooltip. rewrite Hcur.
    cbn [Init.body Init.currentTooltip Init.timers Init.next_id Init.now].
    rewrite Hnext, Htm, Hnow. cbn [Nat.add].
    destruct (tooltip_row_set_opacity (S n) n "0" (Init.body st)
                (conj Hid Hcl)) as [Hid' Hcl'].
    repeat split.
    + rewrite map_app, Hid'. cbn [map node_id].
      now rewrite (seq_S (S n) 0).
    + apply Forall_app. split; [exact Hcl' | repeat constructor].
    + rewrite <- repeat_cons. reflexivity.
Qed.

Lemma fire_without_current body n frames next :
  fold_left Init.step (repeat Init.TimerFires n)
            (Init.mkState body None
                          (repeat (Init.mkTimer 200 Init.RemoveCurrent) n)
                          frames next 200)
  = Init.mkState body None [] frames next 200.
Proof.
  induction n as [|n IH]; [reflexivity|].
  cbn [repeat fold_left Init.step Init.timers Init.run_callback
       Init.currentTooltip Init.body Init.frames Init.next_id Init.now
       Init.action Init.due].
  rewrite Nat.max_id. exact IH.
Qed.

Lemma remove_last_id n body :
  tooltip_row (S n) body ->
  attached n body = true /\ tooltip_row n (removeChild n body).
Proof.
  intros [Hid Hcl]. split.
  - unfold attached. apply existsb_exists.
    assert (Hin : In n (map node_id body))
      by (rewrite Hid; apply in_seq; lia).
    apply in_map_iff in Hin. destruct Hin as (nd & E & Hnd).
    exists nd. split; [exact Hnd | now apply Nat.eqb_eq].
  - unfold removeChild. split.
    + rewrite seq_S in Hid. cbn [Nat.add] in Hid.
      assert (G : forall (b : list node) (ids : list nat),
                 map node_id b = ids ->
                 map node_id
                     (filter (fun nd => negb (Nat.eqb (node_id nd) n)) b)
                 = filter (fun i => negb (Nat.eqb i n)) ids).
      { induction b as [|x b IHb]; intros ids <-; [reflexivity|].
        cbn [map filter]. destruct (negb (Nat.eqb (node_id x) n));
          cbn [map]; now rewrite (IHb _ eq_refl). }
      rewrite (G body _ Hid), filter_app. cbn [filter].
      rewrite Nat.eqb_refl. cbn [negb]. rewrite app_nil_r.
      apply forallb_filter_id. apply forallb_forall.
      intros i Hi. apply in_seq in Hi. apply negb_true_iff, Nat.eqb_neq. lia.
    + apply Forall_forall. intros nd Hnd. apply filter_In in Hnd.
      rewrite Forall_forall in Hcl. now apply Hcl.
Qed.

(** After [S n] runs of the initialiser a titled element calls
    [showTooltip] [S n] times on mouseenter: [S n] tooltips are attached,
    and once the pointer has left and every timer has fired, [n] of them
    are still in the document, with no timer left to remove them. *)
Theorem repeated_init_leaves_tooltips
        (l : DOM.layout) (title : string) (n : nat) :
  let hovered := Pages.mouseenter (S n) l title Init.initial in
  let final :=
    fold_left Init.step (repeat Init.TimerFires (S n))
              (Init.step hovered Init.MouseLeave) in
  List.length (Init.tooltips hovered) = S n /\
  List.length (Init.tooltips final) = n /\
  Init.currentTooltip final = None /\
  Init.timers final = [].
Proof.
  intros hovered final.
  destruct (shows_from_initial l title n)
    as (Hrow & Hcur & Htm & Hnext & Hnow).
  fold hovered in Hrow, Hcur, Htm, Hnext, Hnow.
  split; [now apply tooltip_row_length|].
  assert (E : final = Init.mkState (removeChild n
                                      (set_opacity_of n "0" (Init.body hovered)))
                                   None [] (Init.frames hovered) (S n) 200).
  { subst final. cbn [Init.step]. unfold Init.hideTooltip.
    rewrite Hcur, Htm, Hnow. cbn [Nat.add].
    rewrite <- repeat_cons.
    cbn [repeat fold_left Init.step Init.timers Init.body
         Init.currentTooltip Init.frames Init.next_id Init.run_callback
         Init.now Init.action Init.due].
    destruct (remove_last_id n _
                (tooltip_row_set_opacity (S n) n "0" _ Hrow)) as [Hatt _].
    rewrite Hatt, Hnext. cbn [Nat.max]. apply fire_without_current. }
  rewrite E. unfold Init.tooltips.
  cbn [Init.body Init.currentTooltip Init.timers].
  split; [|split; reflexivity].
  apply tooltip_row_length.
  apply remove_last_id, tooltip_row_set_opacity, Hrow.
Qed.

End RepeatedInit.

(** ** Short hovers on a smart tooltip *)

Section SmartHover.
Import TestResults.

Lemma fire_nothing l st n :
  timers st = [] ->
  fold_left step (repeat (TimerFires l) n) st = st.
Proof.
  intros Ht. induction n as [|n IH]; [reflexivity|].
  cbn [repeat fold_left]. unfold step at 2. rewrite Ht. exact IH.
Qed.

(** A hover or focus that ends before the delay has elapsed shows
    nothing: with no tooltip and no timer before, no timer is left
    after, and the document stays as it is however long one waits. *)
Theorem short_hover_shows_nothing
        (st : state) (l : DOM.layout) (n : nat) :
  timers st = [] -> tooltip st = None ->
  let st' :=
    fold_left step (MouseEnter :: MouseLeave :: repeat (TimerFires l) n)
              st in
  body st' = body st /\ tooltip st' = None /\ timers st' = [].
Proof.
  intros Ht Hn. cbn [fold_left step].
  assert (E : timers (hideTooltip (showTooltip st)) = []).
  { unfold hideTooltip, showTooltip.
    cbn [timers showTimeout tooltip next_timer]. rewrite Hn, Ht.
    destruct (hideTimeout st); cbn [clearTimeout app filter timer_id timers];
      now rewrite Nat.eqb_refl. }
  assert (B : body (hideTooltip (showTooltip st)) = body st).
  { unfold hideTooltip, showTooltip. cbn [tooltip]. now rewrite Hn. }
  assert (T : tooltip (hideTooltip (showTooltip st)) = None).
  { unfold hideTooltip, showTooltip. cbn [tooltip]. now rewrite Hn. }
  rewrite (fire_nothing l _ n E). auto.
Qed.

Lemma short_hover_shows_nothing_cell :
  let st := createSmartTooltip "a long test title" in
  timers st = [] /\ tooltip st = None /\
  body (fold_left step
          [MouseEnter; MouseLeave; TimerFires wide_viewport] st) = [].
Proof.
  intros st.
  assert (Ht : timers st = []) by reflexivity.
  assert (Hn : tooltip st = None) by reflexivity.
  split; [exact Ht | split; [exact Hn |]].
  exact (proj1 (short_hover_shows_nothing st wide_viewport 1 Ht Hn)).
Defined.

End SmartHover.

(** ** Crosses on used colours *)

Section Crosses.
Import DOM UsedColors.

Lemma cross_class_chars c : JS.in_class false cross_class c = is_hex_char c.
Proof. destruct c as [[] [] [] [] [] [] [] []]; reflexivity. Qed.

Lemma take_class_split ic rs n : forall s rest,
  take_class ic rs n s = Some rest ->
  exists ds, s = ds ++ rest /\ String.length ds = n /\
             all_in_class ic rs ds.
Proof.
  induction n as [|n IH]; intros s rest H; cbn [take_class] in H.
  - inversion H; subst. exists "". repeat split.
  - destruct s as [|c s]; [discriminate|].
    destruct (JS.in_class ic rs c) eqn:Hc; [|discriminate].
    destruct (IH s rest H) as (ds & -> & Hl & Ha).
    exists (String c ds). cbn. repeat split; auto.
Qed.

Lemma length_append a b :
  String.length (a ++ b) = (String.length a + String.length b)%nat.
Proof. induction a as [|c a IH]; cbn; [reflexivity | now rewrite IH]. Qed.

Lemma consumed_append pre rest : JS.consumed (pre ++ rest) rest = pre.
Proof.
  unfold JS.consumed. rewrite length_append.
  replace (String.length pre + String.length rest - String.length rest)%nat
    with (String.length pre) by lia.
  induction pre as [|c pre IH]; cbn [append String.length substring].
  - now destruct rest.
  - now rewrite IH.
Qed.

Lemma all_in_cross_class s : all_in_class false cross_class s <-> all_hex s.
Proof.
  induction s as [|c s IH]; cbn [all_in_class all_hex]; [tauto|].
  rewrite cross_class_chars, is_hex_char_In, IH. tauto.
Qed.

Lemma match_here_sound s m :
  match_here s = Some m -> hash_hex 6 m /\ exists post, s = m ++ post.
Proof.
  unfold match_here, hexColorRegex.
  change [("a", "f"); ("A", "F"); ("0", "9")]%char with cross_class.
  destruct s as [|c s]; [discriminate|].
  change (JS.rmatch false _ (String c s) [] ?k)
    with (if JS.in_class false [("#", "#")%char] c
          then JS.rmatch false (JS.Rep 6 (JS.Class cross_class)) s [] k
          else None).
  rewrite hash_class_chars. destruct (Ascii.eqb c "#") eqn:Ec; [|discriminate].
  apply Ascii.eqb_eq in Ec. subst c. rewrite rmatch_rep_class.
  destruct (take_class false cross_class 6 s) as [rest|] eqn:Et;
    [|discriminate].
  destruct (take_class_split _ _ _ _ _ Et) as (ds & -> & Hl & Ha).
  intros H. inversion H as [E]; clear H.
  change (String "#" (ds ++ rest)) with (String "#" ds ++ rest) in *.
  rewrite consumed_append. split.
  - exists ds. split; [reflexivity | split; [exact Hl |]].
    now apply all_in_cross_class.
  - now exists rest.
Qed.

Lemma match_all_from_sound : forall s skip c,
  In c (match_all_from skip s) -> hash_hex 6 c /\ occurs c s.
Proof.
  induction s as [|x s IH]; intros skip c H; [destruct H|].
  assert (Hshift : forall k, In c (match_all_from k s) ->
                             hash_hex 6 c /\ occurs c (String x s)).
  { intros k Hk. destruct (IH k c Hk) as (Hh & pre & post & ->).
    split; [exact Hh | now exists (String x pre), post]. }
  cbn [match_all_from] in H. destruct skip as [|k]; [|eauto].
  destruct (match_here (String x s)) as [m|] eqn:Em; [|eauto].
  destruct H as [<- | H]; [|eauto].
  destruct (match_here_sound _ _ Em) as (Hh & post & E).
  split; [exact Hh | exists "", post; exact E].
Qed.

(** Every colour found in the help text is a [#] followed by six
    hexadecimal digits, and stands in the text. *)
Theorem match_all_sound (text c : string) :
  In c (match_all text) -> hash_hex 6 c /\ occurs c text.
Proof. apply match_all_from_sound. Qed.

Lemma match_all_sound_help :
  In "#ef4444" (match_all "Deja pris: #ef4444, #3b82f6") /\
  hash_hex 6 "#ef4444" /\ occurs "#ef4444" "Deja pris: #ef4444, #3b82f6".
Proof.
  assert (H : In "#ef4444" (match_all "Deja pris: #ef4444, #3b82f6"))
    by (left; reflexivity).
  split; [exact H | exact (match_all_sound _ _ H)].
Defined.

Lemma is_preset_append b el : is_preset (append_cross b el) = is_preset el.
Proof.
  unfold is_preset, append_cross. cbn [classList]. destruct b; [|reflexivity].
  rewrite contains_add. cbn. apply orb_false_r.
Qed.

Lemma has_cross_append b el : has_cross (append_cross b el) = true.
Proof. reflexivity. Qed.

Lemma mark_one_same used el :
  in_presets_container (mark_one used el) = in_presets_container el /\
  in_used_section (mark_one used el) = in_used_section el /\
  data_color (mark_one used el) = data_color el /\
  is_preset (mark_one used el) = is_preset el.
Proof.
  unfold mark_one.
  destruct (in_presets_container el && is_preset el);
    destruct (existsb (String.eqb (data_color el)) used); destruct (has_cross el);
    repeat split; apply is_preset_append.
Qed.

Lemma cross_one_same el :
  in_presets_container (cross_one el) = in_presets_container el /\
  in_used_section (cross_one el) = in_used_section el /\
  data_color (cross_one el) = data_color el /\
  is_preset (cross_one el) = is_preset el /\
  classList (cross_one el) = classList el.
Proof.
  unfold cross_one.
  destruct (is_preset el && contains (classList el) "used");
    destruct (has_cross el); repeat split.
Qed.

Lemma mark_one_twice used el :
  mark_one used (mark_one used el) = mark_one used el.
Proof.
  destruct (mark_one_same used el) as (Hc & _ & Hd & Hp).
  unfold mark_one at 1. rewrite Hc, Hd, Hp.
  unfold mark_one.
  destruct (in_presets_container el && is_preset el); [|reflexivity].
  destruct (existsb (String.eqb (data_color el)) used); [|reflexivity].
  destruct (has_cross el) eqn:E; [now rewrite E | reflexivity].
Qed.

Lemma cross_one_twice el : cross_one (cross_one el) = cross_one el.
Proof.
  destruct (cross_one_same el) as (_ & _ & _ & Hp & Hcl).
  unfold cross_one at 1. rewrite Hp, Hcl. unfold cross_one.
  destruct (is_preset el && contains (classList el) "used"); [|reflexivity].
  destruct (has_cross el) eqn:E; [now rewrite E | reflexivity].
Qed.

Lemma crossed_stays used el :
  has_cross el = true ->
  has_cross (mark_one used el) = true /\ has_cross (cross_one el) = true.
Proof.
  intros H. unfold mark_one, cross_one. rewrite H.
  split;
    [destruct (in_presets_container el && is_preset el);
     destruct (existsb (String.eqb (data_color el)) used)
    | destruct (is_preset el && contains (classList el) "used")]; exact H.
Qed.

(** A second turn of both loops on an element changes nothing. *)
Lemma both_twice used el :
  cross_one (mark_one used (cross_one (mark_one used el)))
  = cross_one (mark_one used el).
Proof.
  set (e1 := cross_one (mark_one used el)).
  assert (Hm : mark_one used e1 = e1).
  { destruct (mark_one_same used el) as (Hc & _ & Hd & Hp).
    destruct (cross_one_same (mark_one used el)) as (Hc' & _ & Hd' & Hp' & _).
    fold e1 in Hc', Hd', Hp'.
    unfold mark_one at 1. rewrite Hc', Hd', Hp', Hc, Hd, Hp.
    destruct (in_presets_container el && is_preset el) eqn:E1; [|reflexivity].
    destruct (existsb (String.eqb (data_color el)) used) eqn:E2;
      [|reflexivity].
    assert (Hx : has_cross e1 = true).
    { assert (H0 : has_cross (mark_one used el) = true).
      { unfold mark_one. rewrite E1, E2.
        destruct (has_cross el) eqn:E3; [exact E3 | reflexivity]. }
      exact (proj2 (crossed_stays used _ H0)). }
    now rewrite Hx. }
  rewrite Hm. subst e1. apply cross_one_twice.
Qed.

Lemma section_colors_same used pg els' :
  map (fun el => (in_used_section el, is_preset el, data_color el)) els'
  = map (fun el => (in_used_section el, is_preset el, data_color el))
        (elements pg) ->
  section_colors (mkPage (helptext pg) used els') = section_colors pg.
Proof.
  unfold section_colors. cbn [elements]. generalize (elements pg).
  induction els' as [|x xs IH]; intros [|y ys] H; try discriminate;
    [reflexivity|].
  cbn [map] in H. inversion H as [[H1 H2 H3 H4]].
  cbn [filter]. rewrite H1, H2.
  destruct (in_used_section y && is_preset y); cbn [map];
    [rewrite H3; f_equal|]; now apply IH.
Qed.

(** Running [addCrossesToUsedColors] a second time changes nothing: no
    preset ever gets a second cross. *)
Theorem addCrosses_idempotent (pg : page) :
  addCrossesToUsedColors (addCrossesToUsedColors pg)
  = addCrossesToUsedColors pg.
Proof.
  unfold addCrossesToUsedColors at 2.
  destruct (text_colors pg) as [|c cs] eqn:Et.
  - set (els := if used_section pg
                then mark_presets (section_colors pg) (elements pg)
                else elements pg).
    unfold addCrossesToUsedColors, text_colors. cbn [helptext used_section].
    fold (text_colors pg). rewrite Et. cbn [elements]. f_equal.
    destruct (used_section pg) eqn:Eu.
    + rewrite section_colors_same.
      * subst els. unfold cross_used, mark_presets. rewrite !map_map.
        apply map_ext. intros el. apply both_twice.
      * subst els. unfold cross_used, mark_presets. rewrite !map_map.
        apply map_ext. intros el.
        destruct (mark_one_same (section_colors pg) el) as (_ & Hs & Hd & Hp).
        destruct (cross_one_same (mark_one (section_colors pg) el))
          as (_ & Hs' & Hd' & Hp' & _).
        now rewrite Hs', Hd', Hp', Hs, Hd, Hp.
    + subst els. unfold cross_used. rewrite map_map.
      apply map_ext. intros el. apply cross_one_twice.
  - unfold addCrossesToUsedColors, text_colors. cbn [helptext].
    fold (text_colors pg). rewrite Et. cbn [helptext used_section elements].
    f_equal. unfold mark_presets. rewrite map_map.
    apply map_ext. intros el. apply mark_one_twice.
Qed.

Lemma existsb_eqb_In c l : existsb (String.eqb c) l = true <-> In c l.
Proof.
  rewrite existsb_exists. split.
  - intros (x & Hx & E). apply String.eqb_eq in E. now subst.
  - intros H. exists c. split; [exact H | apply String.eqb_refl].
Qed.

Lemma mark_one_effect used el :
  let el' := mark_one used el in
  (crosses el' = crosses el \/ (crosses el = 0 /\ crosses el' = 1))%nat /\
  (contains (classList el') "used" = true ->
   contains (classList el) "used" = true \/
   (in_presets_container el = true /\ is_preset el = true /\
    In (data_color el) used)) /\
  (in_presets_container el = true -> is_preset el = true ->
   In (data_color el) used ->
   has_cross el' = true /\
   (has_cross el = false -> contains (classList el') "used" = true)).
Proof.
  unfold mark_one.
  destruct (in_presets_container el) eqn:Ec; destruct (is_preset el) eqn:Ep;
    cbn [andb]; try (repeat split; auto; discriminate).
  destruct (existsb (String.eqb (data_color el)) used) eqn:Eu.
  - apply existsb_eqb_In in Eu.
    destruct (has_cross el) eqn:Ex.
    + repeat split; auto. discriminate.
    + unfold has_cross in Ex. apply negb_false_iff, Nat.eqb_eq in Ex.
      cbn [append_cross crosses classList]. rewrite Ex.
      split; [right; split; reflexivity|].
      split; [intros _; right; auto|].
      intros _ _ _. split; [reflexivity|].
      intros _. rewrite contains_add. apply orb_true_r.
  - assert (Hn : ~ In (data_color el) used).
    { intros H. apply existsb_eqb_In in H. congruence. }
    repeat split; auto; contradiction.
Qed.

Lemma cross_one_effect el :
  let el' := cross_one el in
  (crosses el' = crosses el \/ (crosses el = 0 /\ crosses el' = 1))%nat /\
  (is_preset el = true -> contains (classList el) "used" = true ->
   has_cross el' = true).
Proof.
  unfold cross_one.
  destruct (is_preset el); destruct (contains (classList el) "used");
    cbn [andb]; try (split; [now left | discriminate]).
  destruct (has_cross el) eqn:Ex; [split; auto|].
  unfold has_cross in Ex. apply negb_false_iff, Nat.eqb_eq in Ex.
  cbn [append_cross crosses]. rewrite Ex. split; auto.
Qed.

(** What a call changes on an element: the colour never, the number of
    crosses from none to one at most, and the class [used] comes only
    to a preset of the presets container whose colour is listed, in the
    help text or, when that lists none, in the used colours section. *)
Theorem addCrosses_marks_only_listed
        (pg : page) (i : nat) (el el' : element) :
  nth_error (elements pg) i = Some el ->
  nth_error (elements (addCrossesToUsedColors pg)) i = Some el' ->
  data_color el' = data_color el /\
  (crosses el' = crosses el \/ (crosses el = 0 /\ crosses el' = 1))%nat /\
  (contains (classList el') "used" = true ->
   contains (classList el) "used" = true \/
   (in_presets_container el = true /\ is_preset el = true /\
    (In (data_color el) (text_colors pg) \/
     (text_colors pg = [] /\ used_section pg = true /\
      In (data_color el) (section_colors pg))))).
Proof.
  intros Hel Hel'. unfold addCrossesToUsedColors in Hel'.
  destruct (text_colors pg) as [|c cs] eqn:Et.
  - cbn [elements] in Hel'. unfold cross_used in Hel'.
    destruct (used_section pg) eqn:Eu.
    + unfold mark_presets in Hel'.
      rewrite map_map, nth_error_map, Hel in Hel'. cbn in Hel'.
      inversion Hel'; subst el'; clear Hel'.
      set (sc := section_colors pg).
      destruct (mark_one_same sc el) as (_ & _ & Hd & _).
      destruct (cross_one_same (mark_one sc el)) as (_ & _ & Hd' & _ & Hcl).
      destruct (mark_one_effect sc el) as (Hn & Hu & _).
      destruct (cross_one_effect (mark_one sc el)) as (Hn' & _).
      cbv zeta in Hn, Hu, Hn'.
      split; [congruence|]. split; [lia|].
      rewrite Hcl. intros H. destruct (Hu H) as [H1 | (H1 & H2 & H3)]; auto.
      right. repeat split; auto.
    + rewrite nth_error_map, Hel in Hel'. cbn in Hel'.
      inversion Hel'; subst el'; clear Hel'.
      destruct (cross_one_same el) as (_ & _ & Hd' & _ & Hcl).
      destruct (cross_one_effect el) as (Hn' & _). cbv zeta in Hn'.
      split; [exact Hd' | split; [exact Hn' |]]. rewrite Hcl. auto.
  - cbn [elements] in Hel'. unfold mark_presets in Hel'.
    rewrite nth_error_map, Hel in Hel'. cbn in Hel'.
    inversion Hel'; subst el'; clear Hel'.
    destruct (mark_one_same (c :: cs) el) as (_ & _ & Hd & _).
    destruct (mark_one_effect (c :: cs) el) as (Hn & Hu & _).
    cbv zeta in Hn, Hu.
    split; [exact Hd | split; [exact Hn |]].
    intros H. destruct (Hu H) as [H1 | (H1 & H2 & H3)]; auto.
Qed.

(** The search misses no colour of the text: a match never covers the
    [#] of another colour, as the six characters behind a [#] that
    matched are digits. *)
Lemma take_class_append ic rs ds rest :
  all_in_class ic rs ds ->
  take_class ic rs (String.length ds) (ds ++ rest) = Some rest.
Proof.
  induction ds as [|c ds IH]; intros Ha; [reflexivity|].
  destruct Ha as [Hc Ha]. cbn [String.length append take_class].
  rewrite Hc. now apply IH.
Qed.

Lemma match_here_complete c post :
  hash_hex 6 c -> match_here (c ++ post) = Some c.
Proof.
  intros (ds & -> & Hl & Ha). unfold match_here, hexColorRegex.
  change [("a", "f"); ("A", "F"); ("0", "9")]%char with cross_class.
  change (String "#" ds ++ post) with (String "#" (ds ++ post)).
  change (JS.rmatch false _ (String "#" (ds ++ post)) [] ?k)
    with (if JS.in_class false [("#", "#")%char] "#"
          then JS.rmatch false (JS.Rep 6 (JS.Class cross_class))
                         (ds ++ post) [] k
          else None).
  rewrite hash_class_chars. cbn [Ascii.eqb Bool.eqb].
  rewrite rmatch_rep_class. rewrite <- Hl at 1.
  rewrite take_class_append by now apply all_in_cross_class.
  change (String "#" (ds ++ post)) with (String "#" ds ++ post).
  now rewrite consumed_append.
Qed.

Lemma match_all_from_complete c :
  hash_hex 6 c ->
  forall s skip,
    occurs c s ->
    (exists hx rest,
        s = hx ++ rest /\ String.length hx = skip /\ all_hex hx) ->
    In c (match_all_from skip s).
Proof.
  intros Hc. induction s as [|x s IH]; intros skip (pre & post & E) Hskip.
  - destruct Hc as (ds & -> & _). destruct pre; discriminate.
  - assert (Hrest : pre <> "" -> occurs c s).
    { destruct pre as [|y pre]; [congruence|]. intros _.
      inversion E. now exists pre, post. }
    cbn [match_all_from]. destruct skip as [|k].
    + destruct pre as [|y pre].
      * cbn [append] in E. rewrite E, (match_here_complete c post Hc).
        now left.
      * assert (Ho : occurs c s) by (apply Hrest; discriminate).
        destruct (match_here (String x s)) as [m|] eqn:Em.
        -- right. apply IH; [exact Ho|].
           destruct (match_here_sound _ _ Em)
             as ((ds & -> & Hl & Ha) & rest & Es).
           inversion Es. exists ds, rest.
           split; [reflexivity | split; [cbn [String.length]; lia | exact Ha]].
        -- apply IH; [exact Ho|]. now exists "", s.
    + destruct Hskip as (hx & rest & Es & Hl & Ha).
      destruct hx as [|h hx]; [discriminate|].
      inversion Es; subst. destruct Ha as [Hh Ha].
      apply IH.
      * apply Hrest. intros ->. cbn [append] in E.
        destruct Hc as (ds & -> & _). inversion E; subst.
        apply is_hex_char_In in Hh. now rewrite hash_not_hex in Hh.
      * exists hx, rest. cbn [String.length] in Hl. auto.
Qed.

Lemma match_all_complete text c :
  hash_hex 6 c -> occurs c text -> In c (match_all text).
Proof.
  intros Hc Ho. apply match_all_from_complete; [exact Hc | exact Ho|].
  now exists "", text.
Qed.

(** Every preset of the presets container whose colour, a [#] with six
    hexadecimal digits, stands somewhere in the help text carries a
    cross after the call, and is marked used if it had no cross
    before. *)
Theorem addCrosses_crosses_listed
        (pg : page) (text : string) (i : nat) (el el' : element) :
  helptext pg = Some text ->
  nth_error (elements pg) i = Some el ->
  nth_error (elements (addCrossesToUsedColors pg)) i = Some el' ->
  in_presets_container el = true -> is_preset el = true ->
  hash_hex 6 (data_color el) -> occurs (data_color el) text ->
  has_cross el' = true /\
  (has_cross el = false -> contains (classList el') "used" = true).
Proof.
  intros Ht Hel Hel' Hc Hp Hh Ho.
  assert (Hin : In (data_color el) (text_colors pg)).
  { unfold text_colors. rewrite Ht. now apply match_all_complete. }
  unfold addCrossesToUsedColors in Hel'.
  destruct (text_colors pg) as [|c cs] eqn:Et; [destruct Hin|].
  cbn [elements] in Hel'. unfold mark_presets in Hel'.
  rewrite nth_error_map, Hel in Hel'. cbn in Hel'.
  inversion Hel'; subst el'; clear Hel'.
  destruct (mark_one_effect (c :: cs) el) as (_ & _ & H).
  exact (H Hc Hp Hin).
Qed.

End Crosses.

Lemma addCrosses_marks_only_listed_first :
  nth_error (UsedColors.elements helped_page) 0
  = Some (UsedColors.mkElement true false ["color-preset"] "#ef4444" 0
                               "static") /\
  nth_error (UsedColors.elements
               (UsedColors.addCrossesToUsedColors helped_page)) 0
  = Some (UsedColors.mkElement true false ["color-preset"; "used"]
                               "#ef4444" 1 "relative") /\
  UsedColors.data_color
    (UsedColors.mkElement true false ["color-preset"; "used"] "#ef4444" 1
                          "relative") = "#ef4444".
Proof.
  repeat (split; [reflexivity|]).
  exact (proj1 (addCrosses_marks_only_listed helped_page 0 _ _
                  eq_refl eq_refl)).
Defined.

Lemma addCrosses_crosses_listed_first :
  UsedColors.helptext second_listed = Some "used: #ef4444, #3b82f6" /\
  nth_error (UsedColors.elements second_listed) 0
  = Some (UsedColors.mkElement true false ["color-preset"] "#3b82f6" 0
                               "static") /\
  hash_hex 6 "#3b82f6" /\
  occurs "#3b82f6" "used: #ef4444, #3b82f6" /\
  UsedColors.has_cross
    (UsedColors.mkElement true false ["color-preset"; "used"] "#3b82f6" 1
                          "relative") = true.
Proof.
  assert (Hh : hash_hex 6 "#3b82f6").
  { exists "3b82f6". split; [reflexivity | split; [reflexivity |]].
    cbn; intuition auto. }
  assert (Ho : occurs "#3b82f6" "used: #ef4444, #3b82f6")
    by (exists "used: #ef4444, ", ""; reflexivity).
  split; [reflexivity | split; [reflexivity | split; [exact Hh |]]].
  split; [exact Ho |].
  exact (proj1 (addCrosses_crosses_listed second_listed _ 0 _ _
                  eq_refl eq_refl eq_refl eq_refl eq_refl Hh Ho)).
Defined.

